(** * Token Trackr Node.js SDK: configuration, host metadata, provider
    wrappers and the buffering/delivery core

  A shallow embedding of the TypeScript sources:
  - [TokenTrackrConfig]            (SDK configuration constructor),
  - [getHostMetadata] and its probes (host metadata collection),
  - [BedrockWrapper], [GeminiWrapper], [GeminiChatSession],
    [AzureOpenAIWrapper]            (provider wrappers),
  - [UsageEvent], [UsageEventPayload] (types.ts),
  together with the bounded queue and the retry loop of the client, which
  are described by the specification only.

  Conventions.  A JavaScript [number] that carries a count is a [Z]; a
  string is the sequence of bytes of its UTF-8 encoding; an optional
  property [p?: T] is an [option T]; [process.env] is a finite map from
  names to strings; a function that may throw returns a [result]; the
  readings of [Date.now()] are parameters; calls to [client.record] and
  network requests are collected in logs. *)

From stdpp Require Import gmap strings list.
From Stdlib Require Import ZArith Lia Ascii.

Local Open Scope Z_scope.
Set Warnings "-register-all".

(** ** JavaScript operators used by the sources *)

Module JS.

(** Outcome of code that may throw. *)
Inductive result (A : Type) : Type :=
| Ok (a : A)
| Throw (msg : string).
Arguments Ok {A} a.
Arguments Throw {A} msg.

(** Truthiness of a [string | undefined]: only a non-empty string is
    truthy. *)
Definition truthy_str (s : option string) : bool :=
  match s with
  | Some s => negb (String.eqb s "")
  | None => false
  end.

(** [a || b] on [string | undefined] operands. *)
Definition or_str (a b : option string) : option string :=
  if truthy_str a then a else b.

(** [a || "literal"]: the result is always a string. *)
Definition or_lit (a : option string) (lit : string) : string :=
  match a with
  | Some s => if String.eqb s "" then lit else s
  | None => lit
  end.

(** [a ?? d]: only [undefined] selects the default. *)
Definition nullish {A : Type} (a : option A) (d : A) : A :=
  match a with
  | Some v => v
  | None => d
  end.

(** [n || 0] on a [number | undefined]: [undefined] and [0] are falsy. *)
Definition or_zero (n : option Z) : Z :=
  match n with
  | Some v => if v =? 0 then 0 else v
  | None => 0
  end.

(** [s.replace(/\/$/, "")]: one slash is removed when it is the last
    character of the string. *)
Fixpoint strip_trailing_slash (s : string) : string :=
  match s with
  | EmptyString => EmptyString
  | String c rest =>
      match rest with
      | EmptyString => if Ascii.eqb c "/"%char then EmptyString else s
      | String _ _ => String c (strip_trailing_slash rest)
      end
  end.

(** Optional chaining [o?.p] where [p] is itself optional. *)
Definition chain {A B : Type} (o : option A) (p : A → option B)
    : option B :=
  match o with
  | Some v => p v
  | None => None
  end.

Notation "o ?. p" := (chain o p) (at level 25, left associativity).

(** A property of the value a call returns, when it returns one. *)
Definition returned {A : Type} (P : A → bool) (r : result A) : bool :=
  match r with
  | Ok a => P a
  | Throw _ => true
  end.

(** [!s] on a string. *)
Definition not_str (s : string) : bool := String.eqb s "".

(** The last character of a string, if it has one. *)
Fixpoint last_char (s : string) : option ascii :=
  match s with
  | EmptyString => None
  | String c rest =>
      match last_char rest with
      | Some d => Some d
      | None => Some c
      end
  end.

(** [s.endsWith("/")]. *)
Definition ends_with_slash (s : string) : bool :=
  match last_char s with
  | Some c => Ascii.eqb c "/"%char
  | None => false
  end.

End JS.

Import JS.

(** ** SDK configuration (second part of src/unnamed/part_000) *)

Module TokenTrackrOptions.

Record t : Type := mk {
  backendUrl : option string;
  apiKey : option string;
  tenantId : option string;
  batchSize : option Z;
  flushInterval : option Z;
  maxQueueSize : option Z;
  retryAttempts : option Z;
  timeout : option Z;
  asyncMode : option bool
}.

(** The default argument [options = {}]. *)
Definition empty : t :=
  mk None None None None None None None None None.

(** The options record in which an empty string given for one of the
    three string options is left out instead. *)
Definition blank_as_missing (o : t) : t :=
  let clean (v : option string) :=
    match v with
    | Some s => if String.eqb s "" then None else Some s
    | None => None
    end in
  mk (clean (backendUrl o)) (clean (apiKey o)) (clean (tenantId o))
     (batchSize o) (flushInterval o) (maxQueueSize o) (retryAttempts o)
     (timeout o) (asyncMode o).

End TokenTrackrOptions.

Module TokenTrackrConfig.

Record t : Type := mk {
  backendUrl : string;
  apiKey : option string;
  tenantId : string;
  batchSize : Z;
  flushInterval : Z;
  maxQueueSize : Z;
  retryAttempts : Z;
  timeout : Z;
  asyncMode : bool
}.

(** The string chosen for the backend URL before the trailing slash is
    removed. *)
Definition chosenUrl (options : TokenTrackrOptions.t)
    (env : gmap string string) : string :=
  or_lit (or_str (TokenTrackrOptions.backendUrl options)
                 (env !! "TOKEN_TRACKR_URL"))
         "http://localhost:8000".

(** [new TokenTrackrConfig(options)] with [process.env = env]. *)
Definition new (options : TokenTrackrOptions.t)
    (env : gmap string string) : result t :=
  let backendUrl := strip_trailing_slash (chosenUrl options env) in
  let apiKey :=
    or_str (TokenTrackrOptions.apiKey options)
           (env !! "TOKEN_TRACKR_API_KEY") in
  let tenantId :=
    or_lit (or_str (TokenTrackrOptions.tenantId options)
                   (env !! "TOKEN_TRACKR_TENANT_ID"))
           "default" in
  let batchSize := nullish (TokenTrackrOptions.batchSize options) 10 in
  let flushInterval := nullish (TokenTrackrOptions.flushInterval options) 5 in
  let maxQueueSize := nullish (TokenTrackrOptions.maxQueueSize options) 1000 in
  let retryAttempts := nullish (TokenTrackrOptions.retryAttempts options) 3 in
  let timeout := nullish (TokenTrackrOptions.timeout options) 30000 in
  let asyncMode := nullish (TokenTrackrOptions.asyncMode options) true in
  if not_str backendUrl then Throw "backendUrl is required"
  else if not_str tenantId then Throw "tenantId is required"
  else Ok (mk backendUrl apiKey tenantId batchSize flushInterval
              maxQueueSize retryAttempts timeout asyncMode).

(** The nine configuration options, and the value each has in a
    configuration. *)
Inductive option_name : Type :=
| BackendUrl | ApiKey | TenantId | BatchSize | FlushInterval
| MaxQueueSize | RetryAttempts | Timeout | AsyncMode.

Inductive value : Type :=
| VString (s : string)
| VOptString (s : option string)
| VNumber (n : Z)
| VBoolean (b : bool).

Definition get (o : option_name) (c : t) : value :=
  match o with
  | BackendUrl => VString (backendUrl c)
  | ApiKey => VOptString (apiKey c)
  | TenantId => VString (tenantId c)
  | BatchSize => VNumber (batchSize c)
  | FlushInterval => VNumber (flushInterval c)
  | MaxQueueSize => VNumber (maxQueueSize c)
  | RetryAttempts => VNumber (retryAttempts c)
  | Timeout => VNumber (timeout c)
  | AsyncMode => VBoolean (asyncMode c)
  end.

(** Whether the caller supplied option [o] programmatically. *)
Definition supplied (o : option_name) (options : TokenTrackrOptions.t)
    : bool :=
  match o with
  | BackendUrl => bool_decide (is_Some (TokenTrackrOptions.backendUrl options))
  | ApiKey => bool_decide (is_Some (TokenTrackrOptions.apiKey options))
  | TenantId => bool_decide (is_Some (TokenTrackrOptions.tenantId options))
  | BatchSize => bool_decide (is_Some (TokenTrackrOptions.batchSize options))
  | FlushInterval =>
      bool_decide (is_Some (TokenTrackrOptions.flushInterval options))
  | MaxQueueSize =>
      bool_decide (is_Some (TokenTrackrOptions.maxQueueSize options))
  | RetryAttempts =>
      bool_decide (is_Some (TokenTrackrOptions.retryAttempts options))
  | Timeout => bool_decide (is_Some (TokenTrackrOptions.timeout options))
  | AsyncMode => bool_decide (is_Some (TokenTrackrOptions.asyncMode options))
  end.

(** Option [o] can be overridden through the environment when it is not
    supplied: some options record leaves [o] out, and two environments
    give two configurations that differ at [o]. *)
Definition env_overridable (o : option_name) : Prop :=
  ∃ (options : TokenTrackrOptions.t) (env1 env2 : gmap string string)
    (c1 c2 : t),
    supplied o options = false ∧
    new options env1 = Ok c1 ∧
    new options env2 = Ok c2 ∧
    get o c1 ≠ get o c2.

(** The options that the constructor reads from [process.env]. *)
Definition reads_env (o : option_name) : bool :=
  match o with
  | BackendUrl | ApiKey | TenantId => true
  | _ => false
  end.

End TokenTrackrConfig.

(** ** Host metadata collection (first part of src/unnamed/part_000) *)

Module Host.

Inductive CloudProvider : Type :=
| aws | azure | gcp | on_prem | unknown.

Record K8sMetadata : Type := mkK8s {
  pod : option string;
  namespace : option string;
  node : option string
}.

Record HostMetadata : Type := mkHost {
  hostname : string;
  cloudProvider : CloudProvider;
  instanceId : option string;
  k8s : option K8sMetadata
}.

(** The four metadata requests the probes can issue. *)
Inductive Request : Type :=
| AwsToken
| AwsInstanceId (token : string)
| AzureVmId
| GcpInstanceId.

(** What the process can observe of its surroundings.  [fetch_text r] is
    the body text of request [r], or [None] when [fetch], its one-second
    timeout or [text()] throws. *)
Record World : Type := mkWorld {
  os_hostname : string;
  serviceaccount_token_exists : bool;
  serviceaccount_namespace : option string;
  env : gmap string string;
  fetch_text : Request → option string
}.

(** [String.prototype.trim] removes the white space and the line
    terminators of ECMAScript at both ends of a string.  In UTF-8 they are:
    one byte for U+0009 to U+000D and U+0020; two bytes (C2 A0) for U+00A0;
    three bytes for U+1680 (E1 9A 80), U+2000 to U+200A (E2 80 80 to
    E2 80 8A), U+2028, U+2029, U+202F (E2 80 A8, A9, AF), U+205F
    (E2 81 9F), U+3000 (E3 80 80) and U+FEFF (EF BB BF). *)
Definition is_space (c : ascii) : bool :=
  let n := nat_of_ascii c in
  ((9 <=? n)%nat && (n <=? 13)%nat) || (n =? 32)%nat.

Definition is_space2 (a b : ascii) : bool :=
  (nat_of_ascii a =? 194)%nat && (nat_of_ascii b =? 160)%nat.

Definition is_space3 (a b c : ascii) : bool :=
  let x := nat_of_ascii a in
  let y := nat_of_ascii b in
  let z := nat_of_ascii c in
  ((x =? 225) && (y =? 154) && (z =? 128))%nat ||
  ((x =? 226) && (y =? 128) &&
   (((128 <=? z) && (z <=? 138)) || (z =? 168) || (z =? 169) ||
    (z =? 175)))%nat ||
  ((x =? 226) && (y =? 129) && (z =? 159))%nat ||
  ((x =? 227) && (y =? 128) && (z =? 128))%nat ||
  ((x =? 239) && (y =? 187) && (z =? 191))%nat.

(** The rest of a string after the white space character it starts with,
    if it starts with one. *)
Definition space_prefix (s : string) : option string :=
  match s with
  | EmptyString => None
  | String a r1 =>
      if is_space a then Some r1
      else
        match r1 with
        | EmptyString => None
        | String b r2 =>
            if is_space2 a b then Some r2
            else
              match r2 with
              | EmptyString => None
              | String c r3 => if is_space3 a b c then Some r3 else None
              end
        end
  end.

(** [trimStart]: white space characters are removed from the start as long
    as there is one. *)
Fixpoint trim_start (s : string) : string :=
  match s with
  | EmptyString => EmptyString
  | String a r1 =>
      if is_space a then trim_start r1
      else
        match r1 with
        | EmptyString => s
        | String b r2 =>
            if is_space2 a b then trim_start r2
            else
              match r2 with
              | EmptyString => s
              | String c r3 => if is_space3 a b c then trim_start r3 else s
              end
        end
  end.

(** A string made of white space characters only. *)
Definition all_space (s : string) : bool := String.eqb (trim_start s) "".

(** [trimEnd]: the longest end of the string that is white space only is
    removed. *)
Fixpoint trim_end (s : string) : string :=
  match s with
  | EmptyString => EmptyString
  | String c rest =>
      if all_space s then EmptyString else String c (trim_end rest)
  end.

Definition trim (s : string) : string := trim_end (trim_start s).

Definition isRunningInKubernetes (w : World) : bool :=
  serviceaccount_token_exists w.

Definition getK8sMetadata (w : World) : option K8sMetadata :=
  if negb (isRunningInKubernetes w) then None
  else
    let namespace :=
      match serviceaccount_namespace w with
      | Some contents => Some (trim contents)
      | None => env w !! "POD_NAMESPACE"
      end in
    Some {| pod := or_str (env w !! "HOSTNAME") (env w !! "POD_NAME");
            namespace := namespace;
            node := env w !! "NODE_NAME" |}.

(** Probes run in a monad that logs every request issued, in order. *)
Definition Probe (A : Type) : Type := list Request → A * list Request.

#[export] Instance probe_ret : MRet Probe :=
  fun A (a : A) log => (a, log).

#[export] Instance probe_bind : MBind Probe :=
  fun A B (k : A → Probe B) (m : Probe A) log =>
    let '(a, log') := m log in k a log'.

Definition fetch (w : World) (r : Request) : Probe (option string) :=
  fun log => (fetch_text w r, log ++ [r]).

Definition detectAWS (w : World) : Probe (bool * option string) :=
  tokenText ← fetch w AwsToken;
  match tokenText with
  | None => mret (false, None)
  | Some token =>
      instanceText ← fetch w (AwsInstanceId token);
      match instanceText with
      | None => mret (false, None)
      | Some instanceId => mret (true, Some instanceId)
      end
  end.

Definition detectAzure (w : World) : Probe (bool * option string) :=
  text ← fetch w AzureVmId;
  match text with
  | None => mret (false, None)
  | Some instanceId => mret (true, Some instanceId)
  end.

Definition detectGCP (w : World) : Probe (bool * option string) :=
  text ← fetch w GcpInstanceId;
  match text with
  | None => mret (false, None)
  | Some instanceId => mret (true, Some instanceId)
  end.

Definition with_cloud (m : HostMetadata) (p : CloudProvider)
    (i : option string) : HostMetadata :=
  {| hostname := hostname m; cloudProvider := p; instanceId := i;
     k8s := k8s m |}.

Definition getHostMetadata (w : World) : Probe HostMetadata :=
  let metadata :=
    {| hostname := os_hostname w; cloudProvider := unknown;
       instanceId := None; k8s := getK8sMetadata w |} in
  '(isAWS, awsInstance) ← detectAWS w;
  if isAWS : bool then mret (with_cloud metadata aws awsInstance)
  else
    '(isAzure, azureInstance) ← detectAzure w;
    if isAzure : bool then mret (with_cloud metadata azure azureInstance)
    else
      '(isGCP, gcpInstance) ← detectGCP w;
      if isGCP : bool then mret (with_cloud metadata gcp gcpInstance)
      else mret (with_cloud metadata on_prem (instanceId metadata)).

(** The module-level cache [cachedMetadata] is threaded explicitly. *)
Definition getHostMetadataSync (cachedMetadata : option HostMetadata)
    (w : World) : HostMetadata :=
  match cachedMetadata with
  | Some m => m
  | None =>
      {| hostname := os_hostname w; cloudProvider := unknown;
         instanceId := None; k8s := getK8sMetadata w |}
  end.

Definition initHostMetadata (w : World)
    : Probe (HostMetadata * option HostMetadata) :=
  m ← getHostMetadata w;
  mret (m, Some m).

(** The instance id the AWS probe finds, if it succeeds: both of its
    requests must answer. *)
Definition aws_ok (w : World) : option string :=
  match fetch_text w AwsToken with
  | Some token => fetch_text w (AwsInstanceId token)
  | None => None
  end.

(** The requests of the AWS probe: the second needs the token. *)
Definition aws_requests (w : World) : list Request :=
  AwsToken ::
  match fetch_text w AwsToken with
  | Some token => [AwsInstanceId token]
  | None => []
  end.

(** A string that is exactly one white space character. *)
Definition one_space (s : string) : bool :=
  match space_prefix s with
  | Some rest => String.eqb rest ""
  | None => false
  end.

(** A string that ends with a white space character. *)
Fixpoint ends_with_space (s : string) : bool :=
  match s with
  | EmptyString => false
  | String _ rest => one_space s || ends_with_space rest
  end.

(** A string with no white space character at either end. *)
Definition trimmed (s : string) : bool :=
  match space_prefix s with
  | Some _ => false
  | None => negb (ends_with_space s)
  end.

(** U+00A0 (no-break space) and U+FEFF (byte order mark), as strings. *)
Definition no_break_space : string :=
  String (ascii_of_nat 194) (String (ascii_of_nat 160) "").

Definition byte_order_mark : string :=
  String (ascii_of_nat 239)
    (String (ascii_of_nat 187) (String (ascii_of_nat 191) "")).

End Host.

(** ** What the wrappers hand to [client.record] *)

Module Tracking.

Inductive Provider : Type :=
| bedrock | azure_openai | gemini.

(** The object literal passed to [this.client.record(...)].  A metadata
    entry whose value is [undefined] is kept as [None]. *)
Record RecordCall : Type := mkRecordCall {
  provider : Provider;
  model : string;
  promptTokens : Z;
  completionTokens : Z;
  latencyMs : Z;
  metadata : option (list (string * option string))
}.

(** The prompt and completion token counts of a [record] call. *)
Definition counts (r : RecordCall) : Z * Z :=
  (promptTokens r, completionTokens r).

(** Both token counts of a [record] call are non-negative. *)
Definition counts_nonneg (r : RecordCall) : Prop :=
  0 ≤ promptTokens r ∧ 0 ≤ completionTokens r.

End Tracking.

Import Tracking.

(** ** Async generators of the streaming wrappers

    All streaming wrappers have the same shape: two counters initialised to
    zero, a [for await] loop over the provider's stream whose body updates
    the counters and yields, and one [client.record] call after the loop.
    The generator is a state machine advanced by [next()]. *)

Module Generator.

Section Generator.

Context {Chunk Out : Type}.

(** The counters [promptTokens] and [completionTokens], in this order. *)
Definition Counters : Type := (Z * Z)%type.

(** Effect of the loop body on one item of the provider's stream: no yield
    (the [if] around the body is false), a yield, or an exception. *)
Inductive Step : Type :=
| Skip (acc : Counters)
| Emit (o : Out) (acc : Counters)
| Raise.

Variable body : Chunk → Counters → Step.
Variable record_after : Counters → RecordCall.

Record Gen : Type := mkGen {
  upstream : list Chunk;
  counters : Counters;
  finished : bool
}.

Inductive IterResult : Type :=
| Yielded (o : Out)
| Done
| Thrown.

(** [let promptTokens = 0; let completionTokens = 0;] before the loop. *)
Definition start (stream : list Chunk) : Gen :=
  mkGen stream (0, 0) false.

(** Run the loop from the current position to the next [yield], to the end
    of the stream (where the usage is recorded) or to an exception. *)
Fixpoint advance (up : list Chunk) (acc : Counters)
    : IterResult * Gen * list RecordCall :=
  match up with
  | [] => (Done, mkGen [] acc true, [record_after acc])
  | c :: rest =>
      match body c acc with
      | Skip acc' => advance rest acc'
      | Emit o acc' => (Yielded o, mkGen rest acc' false, [])
      | Raise => (Thrown, mkGen rest acc true, [])
      end
  end.

(** One call of [next()]: the result, the new state and the [record] calls
    made during the call. *)
Definition next (g : Gen) : IterResult * Gen * list RecordCall :=
  if finished g then (Done, g, [])
  else advance (upstream g) (counters g).

(** [n] successive calls of [next()]. *)
Fixpoint calls (n : nat) (g : Gen)
    : list IterResult * Gen * list RecordCall :=
  match n with
  | O => ([], g, [])
  | S n' =>
      let '(r, g1, log1) := next g in
      let '(rs, g2, log2) := calls n' g1 in
      (r :: rs, g2, log1 ++ log2)
  end.

(** A consumer's [for await] loop: call [next()] until the generator is
    done or throws.  [fuel] bounds the number of calls. *)
Fixpoint consume (fuel : nat) (g : Gen)
    : option (list Out * bool * list RecordCall) :=
  match fuel with
  | O => None
  | S fuel' =>
      let '(r, g1, log1) := next g in
      match r with
      | Yielded o =>
          match consume fuel' g1 with
          | Some (os, ok, log2) => Some (o :: os, ok, log1 ++ log2)
          | None => None
          end
      | Done => Some ([], true, log1)
      | Thrown => Some ([], false, log1)
      end
  end.

(** The chunks the loop yields, whether it reaches the end of the stream,
    and the counters it ends with. *)
Fixpoint yields (up : list Chunk) (acc : Counters) : list Out :=
  match up with
  | [] => []
  | c :: rest =>
      match body c acc with
      | Skip acc' => yields rest acc'
      | Emit o acc' => o :: yields rest acc'
      | Raise => []
      end
  end.

Fixpoint completes (up : list Chunk) (acc : Counters) : bool :=
  match up with
  | [] => true
  | c :: rest =>
      match body c acc with
      | Skip acc' | Emit _ acc' => completes rest acc'
      | Raise => false
      end
  end.

Fixpoint final (up : list Chunk) (acc : Counters) : Counters :=
  match up with
  | [] => acc
  | c :: rest =>
      match body c acc with
      | Skip acc' | Emit _ acc' => final rest acc'
      | Raise => acc
      end
  end.

(** How the run ends, and what it has recorded by then. *)
Definition ending (up : list Chunk) (acc : Counters) : IterResult :=
  if completes up acc then Done else Thrown.

Definition recorded (up : list Chunk) (acc : Counters) : list RecordCall :=
  if completes up acc then [record_after (final up acc)] else [].

(** A generator, consumed to exhaustion, hands [outs] to its consumer,
    ends normally and records exactly once, in the call of [next()] that
    follows the last yield: the first [length outs] calls yield [outs] in
    order and record nothing, the next call returns done and records, and
    any further call returns done and records nothing more. *)
Definition records_once_at_end (g : Gen) (outs : list Out) : Prop :=
  ∃ r : RecordCall,
    consume (S (length (upstream g))) g = Some (outs, true, [r]) ∧
    ∀ k : nat,
      (calls k g).1.1 =
        (if (k <=? length outs)%nat then Yielded <$> take k outs
         else (Yielded <$> outs) ++ replicate (k - length outs) Done) ∧
      (calls k g).2 = (if (k <=? length outs)%nat then [] else [r]).

End Generator.

Arguments Step : clear implicits.
Arguments Gen : clear implicits.
Arguments IterResult : clear implicits.

End Generator.

(** ** wrappers/bedrock.ts *)

Module Bedrock.

(** [responseBody.usage], under the casts of [extractTokens]. *)
Module Usage.
Record t : Type := mk {
  input_tokens : option Z;
  output_tokens : option Z;
  prompt_tokens : option Z;
  completion_tokens : option Z
}.
End Usage.

(** [responseBody.meta.billed_units] of the Cohere models. *)
Module BilledUnits.
Record t : Type := mk {
  input_tokens : option Z;
  output_tokens : option Z
}.
End BilledUnits.

Record Meta : Type := mkMeta {
  billed_units : option BilledUnits.t
}.

Record TitanResult : Type := mkTitanResult {
  tokenCount : option Z
}.

(** The parsed response body, with the properties [extractTokens] reads. *)
Record ResponseBody : Type := mkBody {
  usage : option Usage.t;
  inputTextTokenCount : option Z;
  results : option (list TitanResult);
  prompt_token_count : option Z;
  generation_token_count : option Z;
  meta : option Meta
}.

Definition lower (c : ascii) : ascii :=
  let n := nat_of_ascii c in
  if (65 <=? n)%nat && (n <=? 90)%nat then ascii_of_nat (n + 32) else c.

(** [String.prototype.toLowerCase] on the letters of ASCII. *)
Fixpoint toLowerCase (s : string) : string :=
  match s with
  | EmptyString => EmptyString
  | String c rest => String (lower c) (toLowerCase rest)
  end.

(** [s.includes(sub)]. *)
Fixpoint includes (s sub : string) : bool :=
  String.prefix sub s ||
  match s with
  | EmptyString => false
  | String _ rest => includes rest sub
  end.

Definition extractTokens (modelId : string) (responseBody : ResponseBody)
    : Z * Z :=
  let modelIdLower := toLowerCase modelId in
  if includes modelIdLower "anthropic" then
    let usage := usage responseBody in
    (or_zero (usage ?. Usage.input_tokens),
     or_zero (usage ?. Usage.output_tokens))
  else if includes modelIdLower "amazon.titan" then
    let results := results responseBody in
    (or_zero (inputTextTokenCount responseBody),
     or_zero (results ?. head ?. tokenCount))
  else if includes modelIdLower "meta.llama" then
    (or_zero (prompt_token_count responseBody),
     or_zero (generation_token_count responseBody))
  else if includes modelIdLower "cohere" then
    let meta := meta responseBody in
    (or_zero (meta ?. billed_units ?. BilledUnits.input_tokens),
     or_zero (meta ?. billed_units ?. BilledUnits.output_tokens))
  else if includes modelIdLower "mistral" then
    let usage := usage responseBody in
    (or_zero (usage ?. Usage.prompt_tokens),
     or_zero (usage ?. Usage.completion_tokens))
  else if includes modelIdLower "ai21" then
    let usage := usage responseBody in
    (or_zero (usage ?. Usage.prompt_tokens),
     or_zero (usage ?. Usage.completion_tokens))
  else (0, 0).

Record InvokeModelInput : Type := mkInput {
  modelId : string;
  body : string;
  contentType : option string;
  accept : option string
}.

(** The command handed to [this.bedrock.send]. *)
Record Command : Type := mkCommand {
  cmd_modelId : string;
  cmd_body : string;
  cmd_contentType : string;
  cmd_accept : option string
}.

(** The response of [send].  [parsed] is [None] when decoding or
    [JSON.parse] of the body throws. *)
Record InvokeModelResponse : Type := mkResponse {
  parsed : option ResponseBody;
  requestId : option string
}.

(** [invokeModel]: the returned body (or the exception) and the [record]
    calls made.  [startTime] and [endTime] are the two readings of
    [Date.now()]. *)
Definition invokeModel (send : Command → result InvokeModelResponse)
    (startTime endTime : Z) (input : InvokeModelInput)
    : result (ResponseBody * InvokeModelResponse) * list RecordCall :=
  let command :=
    mkCommand (modelId input) (body input)
      (or_lit (contentType input) "application/json")
      (Some (or_lit (accept input) "application/json")) in
  match send command with
  | Throw msg => (Throw msg, [])
  | Ok response =>
      let latencyMs := endTime - startTime in
      match parsed response with
      | None => (Throw "SyntaxError", [])
      | Some responseBody =>
          let '(promptTokens, completionTokens) :=
            extractTokens (modelId input) responseBody in
          (Ok (responseBody, response),
           [mkRecordCall bedrock (modelId input) promptTokens
              completionTokens latencyMs
              (Some [("requestId", requestId response)])])
      end
  end.

(** [chunkData["amazon-bedrock-invocationMetrics"]]. *)
Record InvocationMetrics : Type := mkMetrics {
  inputTokenCount : option Z;
  outputTokenCount : option Z
}.

(** A parsed chunk, with the properties the loop reads: [type] when it
    is a string, and the invocation metrics when they are truthy. *)
Record ChunkData : Type := mkChunkData {
  type : option string;
  invocationMetrics : option InvocationMetrics
}.

(** An item of [response.body]: no [chunk.bytes]; bytes on which
    decoding, [JSON.parse] or the read of [chunkData.type] throws; or bytes
    that parse to a chunk. *)
Inductive StreamEvent : Type :=
| NoChunk
| Unparsable
| Chunk (chunkData : ChunkData).

Definition stream_body (event : StreamEvent) (acc : Generator.Counters)
    : Generator.Step ChunkData :=
  match event with
  | NoChunk => Generator.Skip acc
  | Unparsable => Generator.Raise
  | Chunk chunkData =>
      let acc' :=
        if bool_decide (type chunkData = Some "message_stop") then
          match invocationMetrics chunkData with
          | Some metrics =>
              (or_zero (inputTokenCount metrics),
               or_zero (outputTokenCount metrics))
          | None => acc
          end
        else acc in
      Generator.Emit chunkData acc'
  end.

Definition stream_record (modelId : string) (startTime endTime : Z)
    (acc : Generator.Counters) : RecordCall :=
  mkRecordCall bedrock modelId acc.1 acc.2 (endTime - startTime) None.

(** [invokeModelWithResponseStream], from the point where [send] has
    returned the stream [response.body]: the generator starts with both
    counters at zero.  [stream_body] is the body of its loop,
    [stream_record] the [record] call after the loop; [next], [calls] and
    [consume] below advance it. *)
Definition invokeModelWithResponseStream (startTime endTime : Z)
    (input : InvokeModelInput) (responseBody : list StreamEvent)
    : Generator.Gen StreamEvent :=
  Generator.start responseBody.

Definition next (startTime endTime : Z) (input : InvokeModelInput) :=
  Generator.next stream_body (stream_record (modelId input) startTime endTime).

Definition calls (startTime endTime : Z) (input : InvokeModelInput) :=
  Generator.calls stream_body (stream_record (modelId input) startTime endTime).

Definition consume (startTime endTime : Z) (input : InvokeModelInput) :=
  Generator.consume stream_body
    (stream_record (modelId input) startTime endTime).

(** The last chunk of a stream that is a [message_stop] chunk carrying
    invocation metrics. *)
Definition usage_of (event : StreamEvent) : option InvocationMetrics :=
  match event with
  | Chunk chunkData =>
      if bool_decide (type chunkData = Some "message_stop")
      then invocationMetrics chunkData else None
  | _ => None
  end.

Definition last_usage (events : list StreamEvent)
    : option InvocationMetrics :=
  last (omap usage_of events).

(** The counts of invocation metrics; a count that is absent is zero. *)
Definition metrics_counts (m : InvocationMetrics) : Generator.Counters :=
  (default 0 (inputTokenCount m), default 0 (outputTokenCount m)).

Definition bedrock_counts (event : StreamEvent)
    : option Generator.Counters :=
  metrics_counts <$> usage_of event.

(** All counts of a response body are non-negative. *)
Definition nonneg (n : option Z) : bool :=
  match n with
  | Some v => 0 <=? v
  | None => true
  end.

Definition usage_nonneg (u : Usage.t) : bool :=
  nonneg (Usage.input_tokens u) && nonneg (Usage.output_tokens u) &&
  nonneg (Usage.prompt_tokens u) && nonneg (Usage.completion_tokens u).

Definition meta_nonneg (m : Meta) : bool :=
  match billed_units m with
  | Some b =>
      nonneg (BilledUnits.input_tokens b) &&
      nonneg (BilledUnits.output_tokens b)
  | None => true
  end.

Definition body_nonneg (b : ResponseBody) : bool :=
  from_option usage_nonneg true (usage b) &&
  nonneg (inputTextTokenCount b) &&
  from_option (forallb (fun r => nonneg (tokenCount r))) true (results b) &&
  nonneg (prompt_token_count b) &&
  nonneg (generation_token_count b) &&
  from_option meta_nonneg true (meta b).

Definition response_nonneg (r : InvokeModelResponse) : bool :=
  from_option body_nonneg true (parsed r).

(** A response body with none of the properties [extractTokens] reads. *)
Definition no_counts : ResponseBody :=
  mkBody None None None None None None.

(** The items of a stream that come before the first one that does not
    parse. *)
Fixpoint before_failure (events : list StreamEvent) : list StreamEvent :=
  match events with
  | [] => []
  | Unparsable :: _ => []
  | event :: rest => event :: before_failure rest
  end.

(** A stream without its items that have no [chunk.bytes]. *)
Definition with_bytes (events : list StreamEvent) : list StreamEvent :=
  List.filter (fun event =>
                 match event with
                 | NoChunk => false
                 | _ => true
                 end) events.

Definition metrics_nonneg (m : InvocationMetrics) : bool :=
  nonneg (inputTokenCount m) && nonneg (outputTokenCount m).

Definition event_nonneg (event : StreamEvent) : bool :=
  match event with
  | Chunk chunkData =>
      from_option metrics_nonneg true (invocationMetrics chunkData)
  | _ => true
  end.

(** The chunks of a stream that have bytes, parsed. *)
Definition parsed_chunks (events : list StreamEvent) : list ChunkData :=
  omap (fun event =>
          match event with
          | Chunk chunkData => Some chunkData
          | _ => None
          end) events.

(** No item of the stream makes decoding or parsing throw. *)
Definition all_parse (events : list StreamEvent) : bool :=
  forallb (fun event =>
             match event with
             | Unparsable => false
             | _ => true
             end) events.

End Bedrock.

(** ** wrappers/gemini.ts *)

Module Gemini.

Record Candidate : Type := mkCandidate {
  finishReason : option string
}.

Record UsageMetadata : Type := mkUsage {
  promptTokenCount : Z;
  candidatesTokenCount : Z;
  totalTokenCount : Z
}.

Record Response : Type := mkResponse {
  candidates : option (list Candidate);
  usageMetadata : option UsageMetadata
}.

Record GenerateContentResponse : Type := mkGenerate {
  response : Response
}.

(** The fields of [GeminiWrapper] and [GeminiChatSession] that the methods
    read: [this.modelName]. *)
Record Wrapper : Type := mkWrapper {
  modelName : string
}.

(** The constructor's [model.model || "gemini-unknown"]. *)
Definition new (model : option string) : Wrapper :=
  mkWrapper (or_lit model "gemini-unknown").

(** [generateContent], given the result of [this.model.generateContent]. *)
Definition generateContent (this : Wrapper)
    (answer : result GenerateContentResponse) (startTime endTime : Z)
    : result GenerateContentResponse * list RecordCall :=
  match answer with
  | Throw msg => (Throw msg, [])
  | Ok response0 =>
      let latencyMs := endTime - startTime in
      let usage := usageMetadata (response response0) in
      let promptTokens :=
        or_zero (usage ?. (fun u => Some (promptTokenCount u))) in
      let completionTokens :=
        or_zero (usage ?. (fun u => Some (candidatesTokenCount u))) in
      (Ok response0,
       [mkRecordCall gemini (modelName this) promptTokens completionTokens
          latencyMs
          (Some [("finishReason",
                  candidates (response response0) ?. head ?. finishReason)])])
  end.

(** [GeminiChatSession.sendMessage], given the result of
    [this.chat.sendMessage]. *)
Definition sendMessage (this : Wrapper)
    (answer : result GenerateContentResponse) (startTime endTime : Z)
    : result GenerateContentResponse * list RecordCall :=
  match answer with
  | Throw msg => (Throw msg, [])
  | Ok response0 =>
      let latencyMs := endTime - startTime in
      let usage := usageMetadata (response response0) in
      let promptTokens :=
        or_zero (usage ?. (fun u => Some (promptTokenCount u))) in
      let completionTokens :=
        or_zero (usage ?. (fun u => Some (candidatesTokenCount u))) in
      (Ok response0,
       [mkRecordCall gemini (modelName this) promptTokens completionTokens
          latencyMs None])
  end.

(** The loop body shared by [generateContentStream] and
    [sendMessageStream]. *)
Definition stream_body (chunk : GenerateContentResponse)
    (acc : Generator.Counters) : Generator.Step GenerateContentResponse :=
  let usage := usageMetadata (response chunk) in
  match usage with
  | Some usage =>
      Generator.Emit chunk
        (or_zero (Some (promptTokenCount usage)),
         or_zero (Some (candidatesTokenCount usage)))
  | None => Generator.Emit chunk acc
  end.

Definition stream_record (this : Wrapper) (startTime endTime : Z)
    (acc : Generator.Counters) : RecordCall :=
  mkRecordCall gemini (modelName this) acc.1 acc.2 (endTime - startTime)
    None.

(** [generateContentStream], from the point where
    [this.model.generateContentStream] has returned [stream]: the generator
    starts with both counters at zero.  [stream_body] is the body of its
    loop, [stream_record] the [record] call after the loop; [next], [calls]
    and [consume] below advance it. *)
Definition generateContentStream (this : Wrapper)
    (stream : list GenerateContentResponse)
    : Generator.Gen GenerateContentResponse :=
  Generator.start stream.

(** [GeminiChatSession.sendMessageStream], likewise. *)
Definition sendMessageStream (this : Wrapper)
    (stream : list GenerateContentResponse)
    : Generator.Gen GenerateContentResponse :=
  Generator.start stream.

Definition next (this : Wrapper) (startTime endTime : Z) :=
  Generator.next stream_body (stream_record this startTime endTime).

Definition calls (this : Wrapper) (startTime endTime : Z) :=
  Generator.calls stream_body (stream_record this startTime endTime).

Definition consume (this : Wrapper) (startTime endTime : Z) :=
  Generator.consume stream_body (stream_record this startTime endTime).

(** [startChat]: the session gets [this.modelName] (and the client); the
    provider's chat object is the source of the answers and streams that
    [sendMessage] and [sendMessageStream] are given. *)
Definition startChat (this : Wrapper) : Wrapper :=
  mkWrapper (modelName this).

(** The counts a chunk reports, if it carries usage metadata. *)
Definition gemini_counts (chunk : GenerateContentResponse)
    : option Generator.Counters :=
  (fun u => (promptTokenCount u, candidatesTokenCount u)) <$>
  usageMetadata (response chunk).

(** The usage metadata of the last chunk that carries one. *)
Definition last_usage (stream : list GenerateContentResponse)
    : option UsageMetadata :=
  last (omap (fun chunk => usageMetadata (response chunk)) stream).

Definition usage_nonneg (u : UsageMetadata) : bool :=
  (0 <=? promptTokenCount u) && (0 <=? candidatesTokenCount u).

Definition chunk_nonneg (chunk : GenerateContentResponse) : bool :=
  from_option usage_nonneg true (usageMetadata (response chunk)).

End Gemini.

(** ** Azure OpenAI wrapper (second part of wrappers/gemini.ts) *)

Module AzureOpenAI.

Record Choice : Type := mkChoice {
  finishReason : option string
}.

Record Usage : Type := mkUsage {
  promptTokens : Z;
  completionTokens : Z;
  totalTokens : Z
}.

(** [usage] of a stream event has no total. *)
Record StreamUsage : Type := mkStreamUsage {
  stream_promptTokens : Z;
  stream_completionTokens : Z
}.

Record EmbeddingsUsage : Type := mkEmbeddingsUsage {
  embeddings_promptTokens : Z;
  embeddings_totalTokens : Z
}.

Record ChatCompletionResponse : Type := mkChat {
  id : string;
  choices : option (list Choice);
  usage : option Usage
}.

(** An event of the chat-completions stream. *)
Record StreamEvent : Type := mkEvent {
  event_choices : option (list Choice);
  event_usage : option StreamUsage
}.

Record EmbeddingsResponse : Type := mkEmbeddings {
  embeddings_usage : option EmbeddingsUsage
}.

(** [getChatCompletions], given the result of the client's call. *)
Definition getChatCompletions (deploymentName : string)
    (answer : result ChatCompletionResponse) (startTime endTime : Z)
    : result ChatCompletionResponse * list RecordCall :=
  match answer with
  | Throw msg => (Throw msg, [])
  | Ok response =>
      let latencyMs := endTime - startTime in
      let promptTokens :=
        or_zero (usage response ?. (fun u => Some (promptTokens u))) in
      let completionTokens :=
        or_zero (usage response ?. (fun u => Some (completionTokens u))) in
      (Ok response,
       [mkRecordCall azure_openai deploymentName promptTokens
          completionTokens latencyMs
          (Some [("id", Some (id response));
                 ("finishReason",
                  choices response ?. head ?. finishReason)])])
  end.

Definition stream_body (event : StreamEvent) (acc : Generator.Counters)
    : Generator.Step StreamEvent :=
  match event_usage event with
  | Some usage =>
      Generator.Emit event
        (or_zero (Some (stream_promptTokens usage)),
         or_zero (Some (stream_completionTokens usage)))
  | None => Generator.Emit event acc
  end.

Definition stream_record (deploymentName : string) (startTime endTime : Z)
    (acc : Generator.Counters) : RecordCall :=
  mkRecordCall azure_openai deploymentName acc.1 acc.2
    (endTime - startTime) None.

(** [streamChatCompletions], from the point where the client has returned
    [stream]: the generator starts with both counters at zero.
    [stream_body] is the body of its loop, [stream_record] the [record]
    call after the loop; [next], [calls] and [consume] below advance it. *)
Definition streamChatCompletions (deploymentName : string)
    (stream : list StreamEvent) : Generator.Gen StreamEvent :=
  Generator.start stream.

Definition next (deploymentName : string) (startTime endTime : Z) :=
  Generator.next stream_body
    (stream_record deploymentName startTime endTime).

Definition calls (deploymentName : string) (startTime endTime : Z) :=
  Generator.calls stream_body
    (stream_record deploymentName startTime endTime).

Definition consume (deploymentName : string) (startTime endTime : Z) :=
  Generator.consume stream_body
    (stream_record deploymentName startTime endTime).

(** [getEmbeddings]: embeddings have no completion tokens. *)
Definition getEmbeddings (deploymentName : string)
    (answer : result EmbeddingsResponse) (startTime endTime : Z)
    : result EmbeddingsResponse * list RecordCall :=
  match answer with
  | Throw msg => (Throw msg, [])
  | Ok response =>
      let latencyMs := endTime - startTime in
      (Ok response,
       [mkRecordCall azure_openai deploymentName
          (or_zero (embeddings_usage response ?.
                      (fun u => Some (embeddings_promptTokens u))))
          0 latencyMs None])
  end.

(** The counts an event reports, if it carries a usage. *)
Definition azure_counts (event : StreamEvent)
    : option Generator.Counters :=
  (fun u => (stream_promptTokens u, stream_completionTokens u)) <$>
  event_usage event.

(** The usage of the last event that carries one. *)
Definition last_usage (stream : list StreamEvent) : option StreamUsage :=
  last (omap event_usage stream).

Definition usage_nonneg (u : Usage) : bool :=
  (0 <=? promptTokens u) && (0 <=? completionTokens u).

Definition response_nonneg (r : ChatCompletionResponse) : bool :=
  from_option usage_nonneg true (usage r).

Definition event_nonneg (event : StreamEvent) : bool :=
  from_option
    (fun u => (0 <=? stream_promptTokens u) &&
              (0 <=? stream_completionTokens u))
    true (event_usage event).

Definition embeddings_nonneg (r : EmbeddingsResponse) : bool :=
  from_option (fun u => 0 <=? embeddings_promptTokens u) true
    (embeddings_usage r).

End AzureOpenAI.

(** ** types.ts *)

Module Types.

(** A JavaScript [Date], by its UTC calendar fields. *)
Record Date : Type := mkDate {
  year : Z;
  month : Z;
  day : Z;
  hours : Z;
  minutes : Z;
  seconds : Z;
  milliseconds : Z
}.

(** JSON values; the [unknown] of [Record<string, unknown>]. *)
Inductive json : Type :=
| JNull
| JBoolean (b : bool)
| JNumber (n : Z)
| JString (s : string)
| JArray (items : list json)
| JObject (fields : list (string * json)).

Record UsageEvent : Type := mkUsageEvent {
  tenantId : string;
  provider : Provider;
  model : string;
  promptTokens : Z;
  completionTokens : Z;
  timestamp : Date;
  latencyMs : option Z;
  host : option Host.HostMetadata;
  metadata : option (list (string * json))
}.

Module Payload.

Record K8s : Type := mkK8s {
  pod : option string;
  namespace : option string;
  node : option string
}.

Record HostPayload : Type := mkHostPayload {
  hostname : string;
  cloud_provider : string;
  instance_id : option string;
  k8s : option K8s
}.

End Payload.

Record UsageEventPayload : Type := mkPayload {
  tenant_id : string;
  provider_name : string;
  model_name : string;
  prompt_tokens : Z;
  completion_tokens : Z;
  timestamp_text : string;
  latency_ms : option Z;
  host_payload : option Payload.HostPayload;
  metadata_payload : option (list (string * json))
}.

(** The string literals of the [provider] and [cloudProvider] unions. *)
Definition provider_string (p : Provider) : string :=
  match p with
  | bedrock => "bedrock"
  | azure_openai => "azure_openai"
  | gemini => "gemini"
  end.

Definition cloud_string (c : Host.CloudProvider) : string :=
  match c with
  | Host.aws => "aws"
  | Host.azure => "azure"
  | Host.gcp => "gcp"
  | Host.on_prem => "on-prem"
  | Host.unknown => "unknown"
  end.

(** Decimal digits, most significant first, on [width] positions. *)
Definition digit (n : Z) : ascii :=
  ascii_of_nat (48 + Z.to_nat (n mod 10)).

Fixpoint pad (width : nat) (n : Z) : string :=
  match width with
  | O => EmptyString
  | S w => String (digit (n / 10 ^ Z.of_nat w)) (pad w n)
  end.

(** [Date.prototype.toISOString]: [YYYY-MM-DDTHH:mm:ss.sssZ], with a sign
    and six digits for years outside 0..9999. *)
Definition toISOString (d : Date) : string :=
  (if (0 <=? year d) && (year d <=? 9999) then pad 4 (year d)
   else String (if year d <? 0 then "-"%char else "+"%char)
               (pad 6 (Z.abs (year d))))
  +:+ "-" +:+ pad 2 (month d) +:+ "-" +:+ pad 2 (day d)
  +:+ "T" +:+ pad 2 (hours d) +:+ ":" +:+ pad 2 (minutes d)
  +:+ ":" +:+ pad 2 (seconds d) +:+ "." +:+ pad 3 (milliseconds d)
  +:+ "Z".

(** A recogniser of that ISO-8601 shape. *)
Inductive Item : Type :=
| Digits (n : nat)
| Lit (c : ascii).

Definition is_digit (c : ascii) : bool :=
  let n := nat_of_ascii c in (48 <=? n)%nat && (n <=? 57)%nat.

Fixpoint take_digits (n : nat) (s : string) : option string :=
  match n with
  | O => Some s
  | S n' =>
      match s with
      | String c rest => if is_digit c then take_digits n' rest else None
      | EmptyString => None
      end
  end.

Fixpoint matches (pattern : list Item) (s : string) : bool :=
  match pattern with
  | [] => String.eqb s ""
  | Digits n :: pattern' =>
      match take_digits n s with
      | Some rest => matches pattern' rest
      | None => false
      end
  | Lit c :: pattern' =>
      match s with
      | String c' rest => Ascii.eqb c c' && matches pattern' rest
      | EmptyString => false
      end
  end.

Definition iso_tail : list Item :=
  [Lit "-"; Digits 2; Lit "-"; Digits 2; Lit "T"; Digits 2; Lit ":";
   Digits 2; Lit ":"; Digits 2; Lit "."; Digits 3; Lit "Z"]%char.

Definition is_iso8601 (s : string) : bool :=
  matches (Digits 4 :: iso_tail) s ||
  matches (Lit "+"%char :: Digits 6 :: iso_tail) s ||
  matches (Lit "-"%char :: Digits 6 :: iso_tail) s.

(** Modelled from the spec: the client's conversion of a [UsageEvent] to
    its wire payload (client.ts is not among the sources).  Section 6 of the
    specification lists the fields; the field types are those of
    [UsageEventPayload] in types.ts. *)
Definition toPayload (event : UsageEvent) : UsageEventPayload :=
  {| tenant_id := tenantId event;
     provider_name := provider_string (provider event);
     model_name := model event;
     prompt_tokens := promptTokens event;
     completion_tokens := completionTokens event;
     timestamp_text := toISOString (timestamp event);
     latency_ms := latencyMs event;
     host_payload :=
       match host event with
       | Some h =>
           Some {| Payload.hostname := Host.hostname h;
                   Payload.cloud_provider :=
                     cloud_string (Host.cloudProvider h);
                   Payload.instance_id := Host.instanceId h;
                   Payload.k8s :=
                     match Host.k8s h with
                     | Some k =>
                         Some {| Payload.pod := Host.pod k;
                                 Payload.namespace := Host.namespace k;
                                 Payload.node := Host.node k |}
                     | None => None
                     end |}
       | None => None
       end;
     metadata_payload := metadata event |}.

(** Modelled from the spec: the Transport's serialization of a payload
    (client.ts is missing) is [JSON.stringify], which leaves out the
    properties whose value is [undefined]. *)
Definition prop {A : Type} (key : string) (to_json : A → json)
    (v : option A) : list (string * json) :=
  match v with
  | Some a => [(key, to_json a)]
  | None => []
  end.

(** Modelled from the spec: the JSON text of the [k8s] object of a
    payload (client.ts is missing). *)
Definition k8s_json (k : Payload.K8s) : json :=
  JObject (prop "pod" JString (Payload.pod k) ++
           prop "namespace" JString (Payload.namespace k) ++
           prop "node" JString (Payload.node k)).

(** Modelled from the spec: the JSON text of the [host] object of a
    payload (client.ts is missing). *)
Definition host_json (h : Payload.HostPayload) : json :=
  JObject ([("hostname", JString (Payload.hostname h));
            ("cloud_provider", JString (Payload.cloud_provider h))] ++
           prop "instance_id" JString (Payload.instance_id h) ++
           prop "k8s" k8s_json (Payload.k8s h)).

(** Modelled from the spec: the JSON text of one event payload, with the
    fields of [UsageEventPayload] in their declared order (client.ts is
    missing). *)
Definition payload_json (p : UsageEventPayload) : json :=
  JObject ([("tenant_id", JString (tenant_id p));
            ("provider", JString (provider_name p));
            ("model", JString (model_name p));
            ("prompt_tokens", JNumber (prompt_tokens p));
            ("completion_tokens", JNumber (completion_tokens p));
            ("timestamp", JString (timestamp_text p))] ++
           prop "latency_ms" JNumber (latency_ms p) ++
           prop "host" host_json (host_payload p) ++
           prop "metadata" JObject (metadata_payload p)).

(** Modelled from the spec: the body of one POST is a JSON array of
    event payloads (section 6; client.ts is missing). *)
Definition batch_json (batch : list UsageEvent) : json :=
  JArray (map (fun e => payload_json (toPayload e)) batch).

(** The kind of a JSON value, and the keys of an object with their kinds. *)
Inductive kind : Type :=
| KNull | KBoolean | KInteger | KString | KArray | KObject.

Definition kind_of (j : json) : kind :=
  match j with
  | JNull => KNull
  | JBoolean _ => KBoolean
  | JNumber _ => KInteger
  | JString _ => KString
  | JArray _ => KArray
  | JObject _ => KObject
  end.

Definition shape (j : json) : list (string * kind) :=
  match j with
  | JObject fields => map (fun kv => (kv.1, kind_of kv.2)) fields
  | _ => []
  end.

Fixpoint assoc (key : string) (fields : list (string * json))
    : option json :=
  match fields with
  | [] => None
  | (k, v) :: rest => if String.eqb k key then Some v else assoc key rest
  end.

(** [j[key]] on a JSON object. *)
Definition field (key : string) (j : json) : option json :=
  match j with
  | JObject fields => assoc key fields
  | _ => None
  end.

Definition present {A : Type} (key : string) (k : kind) (v : option A)
    : list (string * kind) :=
  match v with
  | Some _ => [(key, k)]
  | None => []
  end.

End Types.

(** ** The buffering and delivery core (client.ts is not among the sources) *)

Module BoundedQueue.

Import Types.

(** Modelled from the spec: the BoundedQueue of section 4.1 (its source,
    client.ts, is missing).  A FIFO buffer with a capacity ceiling and a
    count of the drops it has reported. *)
Record t : Type := mk {
  items : list UsageEvent;
  capacity : nat;
  drops : nat
}.

(** Modelled from the spec: what [enqueue] tells its caller, the event
    was appended or it was dropped (client.ts is missing). *)
Inductive EnqueueResult : Type :=
| Enqueued
| Dropped.

(** Modelled from the spec: a new queue is empty and has reported no
    drop (client.ts is missing). *)
Definition empty (capacity : nat) : t := mk [] capacity 0.

(** Modelled from the spec: [size()] reports the current length
    (client.ts is missing). *)
Definition size (q : t) : nat := length (items q).

(** Modelled from the spec: [enqueue(event)] of section 4.1 (client.ts is
    missing) appends to the tail; if the current length already equals the
    capacity, the incoming event is dropped and the drop is reported. *)
Definition enqueue (event : UsageEvent) (q : t) : t * EnqueueResult :=
  if (size q =? capacity q)%nat
  then (mk (items q) (capacity q) (S (drops q)), Dropped)
  else (mk (items q ++ [event]) (capacity q) (drops q), Enqueued).

(** Modelled from the spec: [drain(maxCount)] of section 4.1 (client.ts
    is missing) removes and returns up to [maxCount] events from the
    head. *)
Definition drain (maxCount : nat) (q : t) : list UsageEvent * t :=
  (take maxCount (items q),
   mk (drop maxCount (items q)) (capacity q) (drops q)).

(** Sequences of queue operations. *)
Inductive Op : Type :=
| Enqueue (event : UsageEvent)
| Drain (maxCount : nat).

Definition apply (op : Op) (q : t) : t :=
  match op with
  | Enqueue event => (enqueue event q).1
  | Drain maxCount => (drain maxCount q).2
  end.

Definition run (ops : list Op) (q : t) : t :=
  foldl (fun q op => apply op q) q ops.

End BoundedQueue.

Module Delivery.

Import Types.

(** Modelled from the spec: the outcome of one Transport attempt, by the
    classes of sections 4.3 and 7 (client.ts is missing). *)
Inductive AttemptResult : Type :=
| Accepted2xx
| TimedOut
| ConnectionError
| ServerError5xx
| RateLimited429
| ClientError4xx.

(** Modelled from the spec: the taxonomy of section 7 for one attempt
    (client.ts is missing). *)
Inductive FailureClass : Type :=
| Success
| TransportTransient
| TransportPermanent.

(** Modelled from the spec: the classification of section 4.3 (client.ts
    is missing): timeout, connection error, 5xx and 429 are retried; 4xx
    other than 429 is not. *)
Definition classify (r : AttemptResult) : FailureClass :=
  match r with
  | Accepted2xx => Success
  | TimedOut | ConnectionError | ServerError5xx | RateLimited429 =>
      TransportTransient
  | ClientError4xx => TransportPermanent
  end.

(** Modelled from the spec: the Transport of section 2 (client.ts is
    missing), as the answer it gives to the [n]-th attempt (from 1) for a
    batch. *)
Definition Transport : Type := nat → list UsageEvent → AttemptResult.

(** Modelled from the spec: how a delivery cycle ends (client.ts is
    missing): the batch is delivered, or dropped after a permanent failure,
    or dropped after the retries are exhausted. *)
Inductive Outcome : Type :=
| Delivered
| DroppedPermanent
| DroppedExhausted.

(** What a delivery cycle does, in order. *)
Inductive Action : Type :=
| Attempt (n : nat)
| Backoff (delay : Z).

(** Modelled from the spec: the retry attempt count of the configuration
    and the backoff's base delay and ceiling (client.ts is missing). *)
Record RetryPolicy : Type := mkPolicy {
  retryAttempts : nat;
  baseDelay : Z;
  maxDelay : Z
}.

(** Modelled from the spec: the retry loop of section 4.3 around a
    Transport (client.ts is missing).  At most [remaining] attempts are
    made; a transient failure is followed by a backoff whose delay doubles
    up to the ceiling, a success or a permanent failure ends the cycle. *)
Fixpoint attempts (transport : Transport) (batch : list UsageEvent)
    (maxDelay : Z) (remaining n : nat) (delay : Z)
    : list Action * Outcome :=
  match remaining with
  | O => ([], DroppedExhausted)
  | S remaining' =>
      match classify (transport n batch) with
      | Success => ([Attempt n], Delivered)
      | TransportPermanent => ([Attempt n], DroppedPermanent)
      | TransportTransient =>
          match remaining' with
          | O => ([Attempt n], DroppedExhausted)
          | S _ =>
              let '(rest, outcome) :=
                attempts transport batch maxDelay remaining' (S n)
                  (Z.min (2 * delay) maxDelay) in
              (Attempt n :: Backoff delay :: rest, outcome)
          end
      end
  end.

(** Modelled from the spec: one delivery cycle for a batch (client.ts is
    missing): attempts are numbered from 1 and the first backoff is the base
    delay, capped. *)
Definition deliver (policy : RetryPolicy) (transport : Transport)
    (batch : list UsageEvent) : list Action * Outcome :=
  attempts transport batch (maxDelay policy) (retryAttempts policy) 1%nat
    (Z.min (baseDelay policy) (maxDelay policy)).

(** The delivery attempts of a cycle, by their numbers, and how many
    there were. *)
Definition attempt_numbers (trace : list Action) : list nat :=
  flat_map (fun a =>
              match a with
              | Attempt n => [n]
              | Backoff _ => []
              end) trace.

Definition attempt_count (trace : list Action) : nat :=
  length (attempt_numbers trace).

End Delivery.

Module Client.

Import Types.

(** Modelled from the spec: the lifecycle states of section 4.4
    (client.ts is missing). *)
Inductive State : Type :=
| Active
| Draining
| Stopped.

(** Modelled from the spec: the signals on the error-reporting side
    channel of section 7 (client.ts is missing). *)
Inductive Report : Type :=
| QueueOverflow
| ShutdownRace
| DeliveryFailed (outcome : Delivery.Outcome) (batch : list UsageEvent).

(** Modelled from the spec: the Client of section 4.4 in asynchronous mode
    (client.ts is missing): one queue, the batch-size threshold, the retry
    policy, the lifecycle state, the reports emitted so far and the batches
    whose send has been scheduled but not yet run. *)
Record t : Type := mk {
  queue : BoundedQueue.t;
  batchSize : nat;
  policy : Delivery.RetryPolicy;
  state : State;
  reports : list Report;
  scheduled : list (list UsageEvent)
}.

(** Modelled from the spec: a new client is active, with an empty queue
    and nothing reported or scheduled (client.ts is missing). *)
Definition create (maxQueueSize batchSize : nat)
    (policy : Delivery.RetryPolicy) : t :=
  mk (BoundedQueue.empty maxQueueSize) batchSize policy Active [] [].

(** Modelled from the spec: what [record] gives back to its caller in
    asynchronous mode (client.ts is missing).  It returns normally in every
    case, and no delivery outcome is part of it. *)
Inductive RecordResult : Type :=
| Recorded
| NotRecorded.

(** Modelled from the spec: the enqueue of section 4.4 with the count
    trigger of section 4.2 (client.ts is missing).  An overflow is reported;
    when the queue length has reached the batch size a batch is drained and
    its send is scheduled. *)
Definition enqueue_and_trigger (event : UsageEvent) (c : t)
    : t * RecordResult :=
  let '(q, r) := BoundedQueue.enqueue event (queue c) in
  match r with
  | BoundedQueue.Dropped =>
      (mk q (batchSize c) (policy c) (state c)
          (reports c ++ [QueueOverflow]) (scheduled c), NotRecorded)
  | BoundedQueue.Enqueued =>
      if (batchSize c <=? BoundedQueue.size q)%nat then
        let '(batch, q') := BoundedQueue.drain (batchSize c) q in
        (mk q' (batchSize c) (policy c) (state c) (reports c)
            (scheduled c ++ [batch]), Recorded)
      else
        (mk q (batchSize c) (policy c) (state c) (reports c)
            (scheduled c), Recorded)
  end.

(** Modelled from the spec: [record(event)] in asynchronous mode
    (client.ts is missing).  After [Stopped] the event is dropped and
    reported; otherwise it is enqueued. *)
Definition record (event : UsageEvent) (c : t) : t * RecordResult :=
  match state c with
  | Stopped =>
      (mk (queue c) (batchSize c) (policy c) (state c)
          (reports c ++ [ShutdownRace]) (scheduled c), NotRecorded)
  | _ => enqueue_and_trigger event c
  end.

(** Modelled from the spec: the scheduled send of the oldest pending batch,
    with its retries.  A batch that is not delivered is dropped and the
    failure goes to the report channel. *)
Definition send_next (transport : Delivery.Transport) (c : t)
    : t * list Delivery.Action :=
  match scheduled c with
  | [] => (c, [])
  | batch :: rest =>
      let '(trace, outcome) := Delivery.deliver (policy c) transport batch in
      let reports' :=
        match outcome with
        | Delivery.Delivered => reports c
        | _ => reports c ++ [DeliveryFailed outcome batch]
        end in
      (mk (queue c) (batchSize c) (policy c) (state c) reports' rest, trace)
  end.

(** A sequence of [record] calls, with the result of each. *)
Fixpoint records (events : list UsageEvent) (c : t)
    : t * list RecordResult :=
  match events with
  | [] => (c, [])
  | event :: rest =>
      let '(c1, r) := record event c in
      let '(c2, rs) := records rest c1 in
      (c2, r :: rs)
  end.

End Client.

(** ** database/init.sql: the pricing table and its sample rows *)

Module Database.

(** A row of [pricing_table].  A [NUMERIC(20, 10)] price is the integer
    number of its units of 10^-10; dates and UUIDs are their texts. *)
Record PricingRow : Type := mkRow {
  id : string;
  provider : string;
  model : string;
  input_price_per_1k : Z;
  output_price_per_1k : Z;
  effective_from : string;
  effective_to : option string;
  is_active : bool;
  created_at : Z;
  updated_at : Z
}.

(** The columns an [INSERT] of the script supplies. *)
Record Values : Type := mkValues {
  v_provider : string;
  v_model : string;
  v_input_price_per_1k : Z;
  v_output_price_per_1k : Z;
  v_effective_from : string
}.

(** The columns of [CONSTRAINT uq_pricing_model_date UNIQUE]. *)
Definition key (v : Values) : string * string * string :=
  (v_provider v, v_model v, v_effective_from v).

(** The row an [INSERT] proposes: the defaults fill [id] (a generated
    UUID), [effective_to], [is_active], [created_at] and [updated_at]. *)
Definition proposed (uuid : string) (now : Z) (v : Values) : PricingRow :=
  mkRow uuid (v_provider v) (v_model v) (v_input_price_per_1k v)
    (v_output_price_per_1k v) (v_effective_from v) None true now now.

(** [INSERT ... ON CONFLICT (provider, model, effective_from) DO NOTHING]
    of one row into the table, which is indexed by its unique
    constraint. *)
Definition insert_do_nothing (uuid : string) (now : Z) (v : Values)
    (t : gmap (string * string * string) PricingRow)
    : gmap (string * string * string) PricingRow :=
  match t !! key v with
  | Some _ => t
  | None => <[key v := proposed uuid now v]> t
  end.

(** The same for the rows of a [VALUES] list, in order; [uuid n] is the
    UUID generated for the [n]-th proposed row. *)
Fixpoint insert_values (uuid : nat → string) (now : Z) (n : nat)
    (values : list Values) (t : gmap (string * string * string) PricingRow)
    : gmap (string * string * string) PricingRow :=
  match values with
  | [] => t
  | v :: rest =>
      insert_values uuid now (S n) rest (insert_do_nothing (uuid n) now v t)
  end.

(** The sample pricing data of the script. *)
Definition sample_pricing : list Values :=
  [mkValues "bedrock" "anthropic.claude-3-5-sonnet-20241022-v2:0"
     30000000 150000000 "2024-01-01";
   mkValues "bedrock" "anthropic.claude-3-haiku-20240307-v1:0"
     2500000 12500000 "2024-01-01";
   mkValues "azure_openai" "gpt-4o" 50000000 150000000 "2024-01-01";
   mkValues "azure_openai" "gpt-4o-mini" 1500000 6000000 "2024-01-01";
   mkValues "gemini" "gemini-1.5-pro" 12500000 50000000 "2024-01-01";
   mkValues "gemini" "gemini-1.5-flash" 750000 3000000 "2024-01-01"].

(** The [INSERT] statement of the script. *)
Definition insert_sample_pricing (uuid : nat → string) (now : Z)
    (t : gmap (string * string * string) PricingRow)
    : gmap (string * string * string) PricingRow :=
  insert_values uuid now 0 sample_pricing t.

End Database.

(** * Properties *)

(** ** The definitions on concrete inputs *)

Example strip_trailing_slash_examples :
  strip_trailing_slash "https://collector.example/" =
    "https://collector.example" ∧
  strip_trailing_slash "a//" = "a/" ∧
  strip_trailing_slash "/a" = "/a" ∧
  strip_trailing_slash "/" = "".
Proof. repeat split. Qed.

Example new_reads_three_variables :
  TokenTrackrConfig.new
    (TokenTrackrOptions.mk None None None (Some 50) None None None None
       (Some false))
    (<["TOKEN_TRACKR_URL" := "https://collector.example/"]>
       (<["TOKEN_TRACKR_TENANT_ID" := "acme"]>
          (<["TOKEN_TRACKR_BATCH_SIZE" := "7"]> ∅))) =
  Ok (TokenTrackrConfig.mk "https://collector.example" None "acme"
        50 5 1000 3 30000 false).
Proof. reflexivity. Qed.

Example extractTokens_titan :
  Bedrock.extractTokens "Amazon.Titan-text-express-v1"
    (Bedrock.mkBody None (Some 4)
       (Some [Bedrock.mkTitanResult (Some 9);
              Bedrock.mkTitanResult (Some 1)])
       None None None) = (4, 9).
Proof. reflexivity. Qed.

Example extractTokens_unknown_family :
  Bedrock.extractTokens "stability.sd3"
    (Bedrock.mkBody
       (Some (Bedrock.Usage.mk (Some 5) (Some 6) (Some 7) (Some 8)))
       None None None None None) = (0, 0).
Proof. reflexivity. Qed.

(** On a host where the AWS token request answers but the instance-id
    request fails, and Azure answers: four requests, provider azure. *)
Example getHostMetadata_azure :
  Host.getHostMetadata
    (Host.mkWorld "node-1" false None ∅
       (fun r =>
          match r with
          | Host.AwsToken => Some "token"
          | Host.AzureVmId => Some "vm-42"
          | _ => None
          end)) [] =
  (Host.mkHost "node-1" Host.azure (Some "vm-42") None,
   [Host.AwsToken; Host.AwsInstanceId "token"; Host.AzureVmId]).
Proof. reflexivity. Qed.

(** A three-chunk Gemini stream: two calls of [next()] have recorded
    nothing, four calls have recorded once. *)
Example generateContentStream_calls :
  let chunk u := Gemini.mkGenerate (Gemini.mkResponse None u) in
  let stream :=
    [chunk None; chunk (Some (Gemini.mkUsage 3 4 7)); chunk None] in
  let this := Gemini.new (Some "gemini-1.5-pro") in
  (Gemini.calls this 100 250 2
     (Gemini.generateContentStream this stream)).2 = [] ∧
  (Gemini.calls this 100 250 4
     (Gemini.generateContentStream this stream)).2 =
    [mkRecordCall gemini "gemini-1.5-pro" 3 4 150 None].
Proof. split; reflexivity. Qed.

(** A Bedrock stream with a chunk that does not parse: the generator
    throws and nothing is recorded. *)
Example invokeModelWithResponseStream_throws :
  Bedrock.consume 100 250
    (Bedrock.mkInput "anthropic.claude-3" "{}" None None) 5
    (Bedrock.invokeModelWithResponseStream 100 250
       (Bedrock.mkInput "anthropic.claude-3" "{}" None None)
       [Bedrock.Chunk (Bedrock.mkChunkData (Some "message_start") None);
        Bedrock.Unparsable;
        Bedrock.Chunk
          (Bedrock.mkChunkData (Some "message_stop")
             (Some (Bedrock.mkMetrics (Some 12) (Some 34))))]) =
  Some ([Bedrock.mkChunkData (Some "message_start") None], false, []).
Proof. reflexivity. Qed.

Example toISOString_example :
  Types.toISOString (Types.mkDate 2024 5 17 9 30 5 7) =
  "2024-05-17T09:30:05.007Z".
Proof. reflexivity. Qed.

(** Retry attempts 3, base delay 1000, ceiling 1500: three attempts with
    two backoffs, the second capped. *)
Example deliver_always_timing_out :
  Delivery.deliver (Delivery.mkPolicy 3 1000 1500)
    (fun _ _ => Delivery.TimedOut) [] =
  ([Delivery.Attempt 1; Delivery.Backoff 1000; Delivery.Attempt 2;
    Delivery.Backoff 1500; Delivery.Attempt 3], Delivery.DroppedExhausted).
Proof. reflexivity. Qed.

(** A failure on attempt 1 and a success on attempt 2: delivered, and no
    third attempt. *)
Example deliver_second_attempt_succeeds :
  Delivery.deliver (Delivery.mkPolicy 3 1000 30000)
    (fun n _ =>
       match n with
       | 1%nat => Delivery.ServerError5xx
       | _ => Delivery.Accepted2xx
       end) [] =
  ([Delivery.Attempt 1; Delivery.Backoff 1000; Delivery.Attempt 2],
   Delivery.Delivered).
Proof. reflexivity. Qed.

(** A permanent failure is not retried. *)
Example deliver_client_error :
  Delivery.deliver (Delivery.mkPolicy 3 1000 30000)
    (fun _ _ => Delivery.ClientError4xx) [] =
  ([Delivery.Attempt 1], Delivery.DroppedPermanent).
Proof. reflexivity. Qed.

(** ** JavaScript operators *)

Section JSFacts.

Lemma strip_trailing_slash_empty (s : string) :
  strip_trailing_slash s = "" ↔ s = "" ∨ s = "/".
Proof.
  destruct s as [|c [|c' rest]]; simpl.
  - split; [now left | reflexivity].
  - destruct (Ascii.eqb_spec c "/") as [->|Hc].
    + split; [now right | reflexivity].
    + split; [discriminate | intros [H|H]; [discriminate | congruence]].
  - split; [discriminate | intros [H|H]; discriminate].
Qed.

Lemma or_lit_nonempty (a : option string) (lit : string) :
  lit ≠ "" → or_lit a lit ≠ "".
Proof.
  intros Hlit. unfold or_lit.
  destruct a as [s|]; [|exact Hlit].
  destruct (String.eqb_spec s ""); [exact Hlit | assumption].
Qed.

Lemma not_str_false (s : string) : s ≠ "" → not_str s = false.
Proof.
  intros Hs. unfold not_str. now destruct (String.eqb_spec s "").
Qed.

Lemma not_str_true (s : string) : not_str s = true ↔ s = "".
Proof.
  unfold not_str. destruct (String.eqb_spec s ""); split; congruence.
Qed.

Lemma or_zero_default (n : option Z) : or_zero n = default 0 n.
Proof.
  destruct n as [v|]; simpl; [|reflexivity].
  destruct (Z.eqb_spec v 0); congruence.
Qed.

Lemma or_zero_nonneg (n : option Z) :
  Bedrock.nonneg n = true → 0 ≤ or_zero n.
Proof.
  rewrite or_zero_default. destruct n as [v|]; simpl; lia.
Qed.

End JSFacts.

(** ** Configuration *)

Section ConfigFacts.

Import TokenTrackrConfig.

Variable options : TokenTrackrOptions.t.
Variable env : gmap string string.

Lemma chosenUrl_nonempty : chosenUrl options env ≠ "".
Proof. apply or_lit_nonempty. discriminate. Qed.

Lemma tenantId_never_empty :
  or_lit (or_str (TokenTrackrOptions.tenantId options)
                 (env !! "TOKEN_TRACKR_TENANT_ID")) "default" ≠ "".
Proof. apply or_lit_nonempty. discriminate. Qed.

(** The constructor throws exactly when the chosen URL is a lone slash, and
    then with the [backendUrl] message. *)
Lemma new_throws (msg : string) :
  new options env = Throw msg ↔
  msg = "backendUrl is required" ∧ chosenUrl options env = "/".
Proof.
  unfold new.
  destruct (not_str (strip_trailing_slash (chosenUrl options env))) eqn:Hurl.
  - apply not_str_true, strip_trailing_slash_empty in Hurl.
    destruct Hurl as [Hurl|Hurl]; [now apply chosenUrl_nonempty in Hurl|].
    split; [intros [= <-]; now split | intros [-> _]; reflexivity].
  - rewrite (not_str_false _ tenantId_never_empty).
    split; [discriminate|]. intros [_ Hslash]. rewrite Hslash in Hurl.
    discriminate.
Qed.

(** Every field of a constructed configuration, in terms of the options
    and the environment. *)
Lemma new_fields (c : t) :
  new options env = Ok c →
  backendUrl c = strip_trailing_slash (chosenUrl options env) ∧
  apiKey c = or_str (TokenTrackrOptions.apiKey options)
                    (env !! "TOKEN_TRACKR_API_KEY") ∧
  tenantId c = or_lit (or_str (TokenTrackrOptions.tenantId options)
                              (env !! "TOKEN_TRACKR_TENANT_ID")) "default" ∧
  batchSize c = nullish (TokenTrackrOptions.batchSize options) 10 ∧
  flushInterval c = nullish (TokenTrackrOptions.flushInterval options) 5 ∧
  maxQueueSize c = nullish (TokenTrackrOptions.maxQueueSize options) 1000 ∧
  retryAttempts c = nullish (TokenTrackrOptions.retryAttempts options) 3 ∧
  timeout c = nullish (TokenTrackrOptions.timeout options) 30000 ∧
  asyncMode c = nullish (TokenTrackrOptions.asyncMode options) true.
Proof.
  unfold new.
  destruct (not_str (strip_trailing_slash (chosenUrl options env)));
    [discriminate|].
  destruct (not_str _); [discriminate|].
  intros [= <-]. simpl. repeat split.
Qed.

Lemma new_succeeds :
  chosenUrl options env ≠ "/" → ∃ c, new options env = Ok c.
Proof.
  intros Hurl. destruct (new options env) as [c|msg] eqn:Hnew.
  - now exists c.
  - apply new_throws in Hnew. now destruct Hnew.
Qed.

End ConfigFacts.








(** The six options that are not strings come from the options record or
    from a literal, whatever the environment holds. *)
Lemma numeric_options_ignore_env
    (o : TokenTrackrConfig.option_name) (options : TokenTrackrOptions.t)
    (env1 env2 : gmap string string) (c1 c2 : TokenTrackrConfig.t) :
  TokenTrackrConfig.reads_env o = false →
  TokenTrackrConfig.new options env1 = Ok c1 →
  TokenTrackrConfig.new options env2 = Ok c2 →
  TokenTrackrConfig.get o c1 = TokenTrackrConfig.get o c2.
Proof.
  intros Ho H1 H2.
  destruct (new_fields options env1 c1 H1)
    as (_ & _ & _ & Hb1 & Hf1 & Hm1 & Hr1 & Ht1 & Ha1).
  destruct (new_fields options env2 c2 H2)
    as (_ & _ & _ & Hb2 & Hf2 & Hm2 & Hr2 & Ht2 & Ha2).
  destruct o; try discriminate Ho; simpl; congruence.
Qed.

(** The three string options follow their environment variable when the
    options record leaves them out. *)
Lemma string_options_follow_env (o : TokenTrackrConfig.option_name) :
  TokenTrackrConfig.reads_env o = true →
  TokenTrackrConfig.env_overridable o.
Proof.
  intros Ho. exists TokenTrackrOptions.empty, ∅.
  destruct o; try discriminate Ho.
  - exists (<["TOKEN_TRACKR_URL" := "https://collector.example"]> ∅).
    do 2 eexists. split; [reflexivity|]. split; [reflexivity|].
    split; [reflexivity|]. discriminate.
  - exists (<["TOKEN_TRACKR_API_KEY" := "secret"]> ∅).
    do 2 eexists. split; [reflexivity|]. split; [reflexivity|].
    split; [reflexivity|]. discriminate.
  - exists (<["TOKEN_TRACKR_TENANT_ID" := "acme"]> ∅).
    do 2 eexists. split; [reflexivity|]. split; [reflexivity|].
    split; [reflexivity|]. discriminate.
Qed.

(** C8, as stated, fails: the batch size is not overridable through the
    environment, so not every option is. *)
Lemma batch_size_not_env_overridable :
  ¬ TokenTrackrConfig.env_overridable TokenTrackrConfig.BatchSize ∧
  ¬ (∀ o, TokenTrackrConfig.env_overridable o).
Proof.
  assert (Hbatch :
    ¬ TokenTrackrConfig.env_overridable TokenTrackrConfig.BatchSize).
  { intros (options & env1 & env2 & c1 & c2 & _ & H1 & H2 & Hne).
    apply Hne.
    now apply (numeric_options_ignore_env _ options env1 env2). }
  split; [exact Hbatch|]. intros Hall. apply Hbatch, Hall.
Qed.

(** C8 (amended): the options that an environment variable can override
    when they are not supplied programmatically are exactly the backend URL
    (TOKEN_TRACKR_URL), the API key (TOKEN_TRACKR_API_KEY) and the tenant id
    (TOKEN_TRACKR_TENANT_ID).  Batch size, flush interval, max queue size,
    retry attempts, timeout and the async-mode flag come from the options
    record or from their literal defaults (10, 5, 1000, 3, 30000, true),
    whatever the environment holds. *)
Theorem env_overridable_options (o : TokenTrackrConfig.option_name) :
  (TokenTrackrConfig.env_overridable o ↔
   o = TokenTrackrConfig.BackendUrl ∨ o = TokenTrackrConfig.ApiKey ∨
   o = TokenTrackrConfig.TenantId) ∧
  (∀ env c,
     TokenTrackrConfig.new TokenTrackrOptions.empty env = Ok c →
     TokenTrackrConfig.apiKey c = env !! "TOKEN_TRACKR_API_KEY" ∧
     TokenTrackrConfig.tenantId c =
       or_lit (env !! "TOKEN_TRACKR_TENANT_ID") "default" ∧
     TokenTrackrConfig.backendUrl c =
       strip_trailing_slash
         (or_lit (env !! "TOKEN_TRACKR_URL") "http://localhost:8000") ∧
     TokenTrackrConfig.batchSize c = 10 ∧
     TokenTrackrConfig.flushInterval c = 5 ∧
     TokenTrackrConfig.maxQueueSize c = 1000 ∧
     TokenTrackrConfig.retryAttempts c = 3 ∧
     TokenTrackrConfig.timeout c = 30000 ∧
     TokenTrackrConfig.asyncMode c = true).
Proof.
  split.
  - split.
    + intros Hover.
      destruct (TokenTrackrConfig.reads_env o) eqn:Ho.
      * destruct o; try discriminate Ho; auto.
      * exfalso.
        destruct Hover as (options & env1 & env2 & c1 & c2 & _ & H1 & H2 & Hne).
        apply Hne.
        now apply (numeric_options_ignore_env _ options env1 env2).
    + intros Ho. apply string_options_follow_env.
      destruct Ho as [->| [->| ->]]; reflexivity.
  - intros env c Hnew.
    destruct (new_fields _ _ _ Hnew)
      as (Hu & Hk & Ht & Hb & Hf & Hm & Hr & Hto & Ha).
    repeat split; assumption.
Qed.

(** ** Host metadata *)

Section HostFacts.

Import Host.

Variable w : World.

Ltac run_probe :=
  unfold getHostMetadata, detectAWS, detectAzure, detectGCP, fetch,
    aws_ok, aws_requests, with_cloud, mbind, probe_bind, mret, probe_ret;
  simpl.

(** Each probe issues its own requests only, and reports success exactly
    when all of them answer. *)
Lemma detectAWS_spec (log : list Request) :
  detectAWS w log =
  (match aws_ok w with
   | Some i => (true, Some i)
   | None => (false, None)
   end, log ++ aws_requests w).
Proof.
  run_probe.
  destruct (fetch_text w AwsToken) as [token|]; simpl; [|reflexivity].
  rewrite <- app_assoc. simpl.
  now destruct (fetch_text w (AwsInstanceId token)).
Qed.

Lemma detectAzure_spec (log : list Request) :
  detectAzure w log =
  (match fetch_text w AzureVmId with
   | Some i => (true, Some i)
   | None => (false, None)
   end, log ++ [AzureVmId]).
Proof. run_probe. now destruct (fetch_text w AzureVmId). Qed.

Lemma detectGCP_spec (log : list Request) :
  detectGCP w log =
  (match fetch_text w GcpInstanceId with
   | Some i => (true, Some i)
   | None => (false, None)
   end, log ++ [GcpInstanceId]).
Proof. run_probe. now destruct (fetch_text w GcpInstanceId). Qed.

Lemma getHostMetadata_unfold (log : list Request) :
  getHostMetadata w log =
  let metadata := mkHost (os_hostname w) unknown None (getK8sMetadata w) in
  let '(a, log1) := detectAWS w log in
  if a.1 then (with_cloud metadata aws a.2, log1)
  else
    let '(z, log2) := detectAzure w log1 in
    if z.1 then (with_cloud metadata azure z.2, log2)
    else
      let '(g, log3) := detectGCP w log2 in
      if g.1 then (with_cloud metadata gcp g.2, log3)
      else (with_cloud metadata on_prem None, log3).
Proof.
  unfold getHostMetadata, mbind, probe_bind, mret, probe_ret. simpl.
  destruct (detectAWS w log) as [[[] ?] log1]; simpl; [reflexivity|].
  destruct (detectAzure w log1) as [[[] ?] log2]; simpl; [reflexivity|].
  destruct (detectGCP w log2) as [[[] ?] log3]; reflexivity.
Qed.

End HostFacts.

(** C9: the result of [getHostMetadata] never has the provider
    [unknown].  The probes run in the order AWS, Azure, GCP; the first one
    that succeeds fixes the provider and the instance id and no later probe
    is issued; when all three fail the provider is on-prem (and there is no
    instance id). *)
Theorem getHostMetadata_cloud_provider
    (w : Host.World) (log : list Host.Request) :
  let m := (Host.getHostMetadata w log).1 in
  let log' := (Host.getHostMetadata w log).2 in
  Host.cloudProvider m ≠ Host.unknown ∧
  Host.hostname m = Host.os_hostname w ∧
  Host.k8s m = Host.getK8sMetadata w ∧
  match Host.aws_ok w, Host.fetch_text w Host.AzureVmId,
        Host.fetch_text w Host.GcpInstanceId with
  | Some i, _, _ =>
      Host.cloudProvider m = Host.aws ∧ Host.instanceId m = Some i ∧
      log' = log ++ Host.aws_requests w
  | None, Some i, _ =>
      Host.cloudProvider m = Host.azure ∧ Host.instanceId m = Some i ∧
      log' = log ++ Host.aws_requests w ++ [Host.AzureVmId]
  | None, None, Some i =>
      Host.cloudProvider m = Host.gcp ∧ Host.instanceId m = Some i ∧
      log' = log ++ Host.aws_requests w ++
             [Host.AzureVmId; Host.GcpInstanceId]
  | None, None, None =>
      Host.cloudProvider m = Host.on_prem ∧ Host.instanceId m = None ∧
      log' = log ++ Host.aws_requests w ++
             [Host.AzureVmId; Host.GcpInstanceId]
  end.
Proof.
  intros m log'. subst m log'.
  rewrite getHostMetadata_unfold, detectAWS_spec.
  destruct (Host.aws_ok w) as [i|]; simpl.
  { repeat split; discriminate. }
  rewrite detectAzure_spec.
  destruct (Host.fetch_text w Host.AzureVmId) as [i|]; simpl.
  { rewrite <- app_assoc. repeat split; discriminate. }
  rewrite detectGCP_spec.
  destruct (Host.fetch_text w Host.GcpInstanceId) as [i|]; simpl;
    rewrite <- !app_assoc; simpl; repeat split; discriminate.
Qed.

(** ** Async generators *)

Section GeneratorFacts.

Import Generator.

Context {Chunk Out : Type}.
Variable body : Chunk → Counters → Step Out.
Variable record_after : Counters → RecordCall.

Local Abbreviation advance := (advance body record_after).
Local Abbreviation next := (next body record_after).
Local Abbreviation calls := (calls body record_after).
Local Abbreviation consume := (consume body record_after).
Local Abbreviation yields := (yields body).
Local Abbreviation completes := (completes body).
Local Abbreviation final := (final body).
Local Abbreviation ending := (ending body).
Local Abbreviation recorded := (recorded body record_after).

(** One [next()] from inside the loop: either the next yield, with the
    rest of the run unchanged, or the end of the run. *)
Lemma advance_spec (up : list Chunk) (acc : Counters) :
  match yields up acc with
  | o :: ys =>
      ∃ rest acc',
        advance up acc = (Yielded o, mkGen rest acc' false, []) ∧
        yields rest acc' = ys ∧
        completes rest acc' = completes up acc ∧
        final rest acc' = final up acc
  | [] =>
      ∃ g, advance up acc = (ending up acc, g, recorded up acc) ∧
           finished g = true
  end.
Proof.
  revert acc. induction up as [|c rest IH]; intros acc.
  - simpl. eexists. split; reflexivity.
  - unfold Generator.ending, Generator.recorded in *. simpl.
    destruct (body c acc) as [acc'|o acc'|].
    + apply IH.
    + exists rest, acc'. repeat split.
    + eexists. split; reflexivity.
Qed.

Lemma calls_finished (k : nat) (g : Gen Chunk) :
  finished g = true → calls k g = (replicate k Done, g, []).
Proof.
  intros Hg. induction k as [|k IH]; [reflexivity|].
  simpl. unfold Generator.next. rewrite Hg, IH. reflexivity.
Qed.

(** The results and the [record] calls of [k] calls of [next()] on a fresh
    generator: the first calls yield, the call after the last yield ends the
    run, and further calls do nothing. *)
Lemma calls_spec (k : nat) (up : list Chunk) (acc : Counters) :
  calls k (mkGen up acc false) =
  (if (k <=? length (yields up acc))%nat
   then (Yielded <$> take k (yields up acc),
         (calls k (mkGen up acc false)).1.2, [])
   else ((Yielded <$> yields up acc) ++
           ending up acc :: replicate (k - length (yields up acc) - 1) Done,
         (calls k (mkGen up acc false)).1.2, recorded up acc)).
Proof.
  revert up acc. induction k as [|k IH]; intros up acc; [reflexivity|].
  cbn [Generator.calls]. unfold Generator.next.
  cbn [finished upstream counters].
  pose proof (advance_spec up acc) as Hadv.
  destruct (yields up acc) as [|o ys].
  - destruct Hadv as (g & -> & Hg). rewrite (calls_finished k g Hg).
    cbn. rewrite Nat.sub_0_r, app_nil_r. reflexivity.
  - destruct Hadv as (rest & acc' & -> & Hys & Hc & Hf).
    rewrite (IH rest acc'). rewrite Hys.
    unfold Generator.ending, Generator.recorded. rewrite Hc, Hf.
    cbn [length]. change (S k <=? S (length ys))%nat with (k <=? length ys)%nat.
    destruct (k <=? length ys)%nat; reflexivity.
Qed.

(** A consumer that keeps calling [next()] receives every yielded chunk
    and sees the run end; one more call than there are yields suffices. *)
Lemma consume_spec (fuel : nat) (up : list Chunk) (acc : Counters) :
  (length (yields up acc) < fuel)%nat →
  consume fuel (mkGen up acc false) =
  Some (yields up acc, completes up acc, recorded up acc).
Proof.
  revert up acc. induction fuel as [|fuel IH]; intros up acc Hfuel; [lia|].
  cbn [Generator.consume]. unfold Generator.next.
  cbn [finished upstream counters].
  pose proof (advance_spec up acc) as Hadv.
  destruct (yields up acc) as [|o ys].
  - destruct Hadv as (g & -> & _).
    unfold Generator.ending, Generator.recorded.
    destruct (completes up acc); reflexivity.
  - destruct Hadv as (rest & acc' & -> & Hys & Hc & Hf).
    cbn [length] in Hfuel. rewrite (IH rest acc') by (rewrite Hys; lia).
    unfold Generator.recorded. rewrite Hys, Hc, Hf. reflexivity.
Qed.

Lemma yields_length (up : list Chunk) (acc : Counters) :
  (length (yields up acc) ≤ length up)%nat.
Proof.
  revert acc. induction up as [|c rest IH]; intros acc; simpl; [lia|].
  destruct (body c acc) as [acc'|o acc'|]; simpl;
    try specialize (IH acc'); lia.
Qed.

(** A property of the counters that every loop body preserves holds at the
    end of the run. *)
Lemma final_invariant (P : Counters → Prop) (up : list Chunk) :
  (∀ c acc, c ∈ up → P acc →
     match body c acc with
     | Skip acc' | Emit _ acc' => P acc'
     | Raise => True
     end) →
  ∀ acc, P acc → P (final up acc).
Proof.
  induction up as [|c rest IH]; intros Hbody acc Hacc; [exact Hacc|].
  simpl. pose proof (Hbody c acc (list_elem_of_here _ _) Hacc) as Hc.
  destruct (body c acc) as [acc'|o acc'|]; [| |exact Hacc];
    (apply IH; [|exact Hc]);
    intros c' a Hin; apply Hbody; now apply list_elem_of_further.
Qed.

(** When each body either keeps the counters or overwrites them with
    counts read from the chunk, the run ends with the counts of the last
    chunk that has some. *)
Lemma final_last (counts : Chunk → option Counters) (up : list Chunk) :
  (∀ c acc,
     match body c acc with
     | Skip acc' | Emit _ acc' => acc' = default acc (counts c)
     | Raise => True
     end) →
  ∀ acc, completes up acc = true →
         final up acc = default acc (last (omap counts up)).
Proof.
  intros Hbody. induction up as [|c rest IH]; intros acc Hok; [reflexivity|].
  change (omap counts (c :: rest))
    with (match counts c with
          | Some y => y :: omap counts rest
          | None => omap counts rest
          end).
  cbn [Generator.final Generator.completes] in *. specialize (Hbody c acc).
  destruct (body c acc) as [acc'|o acc'|]; [| |discriminate];
    rewrite (IH acc' Hok); subst acc';
    (destruct (counts c) as [new|]; [|reflexivity]);
    rewrite last_cons; now destruct (last (omap counts rest)).
Qed.

End GeneratorFacts.

(** ** Streaming wrappers *)

Lemma last_omap_fmap {A B C : Type} (f : B → C) (g : A → option B)
    (l : list A) :
  last (omap (fun a => f <$> g a) l) = f <$> last (omap g l).
Proof.
  induction l as [|a l IH]; [reflexivity|].
  change (omap (fun a => f <$> g a) (a :: l))
    with (match f <$> g a with
          | Some y => y :: omap (fun a => f <$> g a) l
          | None => omap (fun a => f <$> g a) l
          end).
  change (omap g (a :: l))
    with (match g a with
          | Some y => y :: omap g l
          | None => omap g l
          end).
  destruct (g a) as [b|]; simpl; [|exact IH].
  rewrite !last_cons, IH. now destruct (last (omap g l)).
Qed.

Section GeminiFacts.

Import Gemini.

Lemma gemini_body (chunk : GenerateContentResponse)
    (acc : Generator.Counters) :
  stream_body chunk acc =
  Generator.Emit chunk (default acc (gemini_counts chunk)).
Proof.
  unfold stream_body, gemini_counts.
  destruct (usageMetadata (response chunk)) as [u|]; [|reflexivity].
  now rewrite !or_zero_default.
Qed.

Lemma gemini_yields (stream : list GenerateContentResponse)
    (acc : Generator.Counters) :
  Generator.yields stream_body stream acc = stream ∧
  Generator.completes stream_body stream acc = true.
Proof.
  revert acc. induction stream as [|chunk rest IH]; intros acc; [easy|].
  simpl. rewrite gemini_body.
  destruct (IH (default acc (gemini_counts chunk))) as [-> ->]. easy.
Qed.

Lemma gemini_final (stream : list GenerateContentResponse) :
  Generator.final stream_body stream (0, 0) =
  match last_usage stream with
  | Some u => (promptTokenCount u, candidatesTokenCount u)
  | None => (0, 0)
  end.
Proof.
  rewrite (final_last stream_body gemini_counts).
  - unfold gemini_counts, last_usage. rewrite last_omap_fmap.
    now destruct (last _).
  - intros chunk acc. now rewrite gemini_body.
  - apply gemini_yields.
Qed.

Lemma gemini_final_nonneg (stream : list GenerateContentResponse) :
  forallb chunk_nonneg stream = true →
  0 ≤ (Generator.final stream_body stream (0, 0)).1 ∧
  0 ≤ (Generator.final stream_body stream (0, 0)).2.
Proof.
  intros Hall.
  apply (final_invariant stream_body (fun acc => 0 ≤ acc.1 ∧ 0 ≤ acc.2));
    [|simpl; lia].
  intros chunk acc Hin Hacc. rewrite gemini_body.
  rewrite forallb_forall in Hall.
  specialize (Hall chunk (proj1 (list_elem_of_In _ _) Hin)).
  unfold chunk_nonneg, gemini_counts, usage_nonneg in *.
  destruct (usageMetadata (response chunk)) as [u|]; simpl in *;
    [|exact Hacc].
  apply andb_true_iff in Hall. lia.
Qed.

End GeminiFacts.

Section AzureFacts.

Import AzureOpenAI.

Lemma azure_body (event : StreamEvent) (acc : Generator.Counters) :
  stream_body event acc =
  Generator.Emit event (default acc (azure_counts event)).
Proof.
  unfold stream_body, azure_counts.
  destruct (event_usage event) as [u|]; [|reflexivity].
  now rewrite !or_zero_default.
Qed.

Lemma azure_yields (stream : list StreamEvent) (acc : Generator.Counters) :
  Generator.yields stream_body stream acc = stream ∧
  Generator.completes stream_body stream acc = true.
Proof.
  revert acc. induction stream as [|event rest IH]; intros acc; [easy|].
  simpl. rewrite azure_body.
  destruct (IH (default acc (azure_counts event))) as [-> ->]. easy.
Qed.

Lemma azure_final (stream : list StreamEvent) :
  Generator.final stream_body stream (0, 0) =
  match last_usage stream with
  | Some u => (stream_promptTokens u, stream_completionTokens u)
  | None => (0, 0)
  end.
Proof.
  rewrite (final_last stream_body azure_counts).
  - unfold azure_counts, last_usage. rewrite last_omap_fmap.
    now destruct (last _).
  - intros event acc. now rewrite azure_body.
  - apply azure_yields.
Qed.

Lemma azure_final_nonneg (stream : list StreamEvent) :
  forallb event_nonneg stream = true →
  0 ≤ (Generator.final stream_body stream (0, 0)).1 ∧
  0 ≤ (Generator.final stream_body stream (0, 0)).2.
Proof.
  intros Hall.
  apply (final_invariant stream_body (fun acc => 0 ≤ acc.1 ∧ 0 ≤ acc.2));
    [|simpl; lia].
  intros event acc Hin Hacc. rewrite azure_body.
  rewrite forallb_forall in Hall.
  specialize (Hall event (proj1 (list_elem_of_In _ _) Hin)).
  unfold event_nonneg, azure_counts in *.
  destruct (event_usage event) as [u|]; simpl in *; [|exact Hacc].
  apply andb_true_iff in Hall. lia.
Qed.

End AzureFacts.

Section BedrockFacts.

Import Bedrock.

Lemma bedrock_body (event : StreamEvent) (acc : Generator.Counters) :
  stream_body event acc =
  match event with
  | NoChunk => Generator.Skip acc
  | Unparsable => Generator.Raise
  | Chunk chunkData =>
      Generator.Emit chunkData (default acc (bedrock_counts event))
  end.
Proof.
  destruct event as [| |chunkData]; try reflexivity.
  unfold stream_body, bedrock_counts, usage_of, metrics_counts.
  case_bool_decide; [|reflexivity].
  destruct (invocationMetrics chunkData) as [m|]; [|reflexivity].
  now rewrite !or_zero_default.
Qed.

(** The loop reaches the end of the stream exactly when every item
    parses, and then it has yielded every parsed chunk. *)
Lemma bedrock_completes (events : list StreamEvent)
    (acc : Generator.Counters) :
  Generator.completes stream_body events acc = all_parse events.
Proof.
  revert acc. induction events as [|event rest IH]; intros acc; [easy|].
  cbn [Generator.completes all_parse forallb]. rewrite bedrock_body.
  destruct event; [apply IH|reflexivity|apply IH].
Qed.

Lemma bedrock_yields (events : list StreamEvent)
    (acc : Generator.Counters) :
  all_parse events = true →
  Generator.yields stream_body events acc = parsed_chunks events.
Proof.
  revert acc. induction events as [|event rest IH]; intros acc Hall;
    [easy|].
  cbn [Generator.yields]. rewrite bedrock_body.
  destruct event as [| |chunkData]; [now apply IH|discriminate|].
  cbn [all_parse forallb andb] in Hall.
  rewrite (IH _ Hall). reflexivity.
Qed.

Lemma bedrock_final (events : list StreamEvent) :
  all_parse events = true →
  Generator.final stream_body events (0, 0) =
  match last_usage events with
  | Some m => metrics_counts m
  | None => (0, 0)
  end.
Proof.
  intros Hall. rewrite (final_last stream_body bedrock_counts).
  - unfold bedrock_counts, last_usage. rewrite last_omap_fmap.
    now destruct (last _).
  - intros event acc. rewrite bedrock_body. now destruct event.
  - now rewrite bedrock_completes.
Qed.

Lemma bedrock_final_nonneg (events : list StreamEvent) :
  forallb event_nonneg events = true →
  0 ≤ (Generator.final stream_body events (0, 0)).1 ∧
  0 ≤ (Generator.final stream_body events (0, 0)).2.
Proof.
  intros Hall.
  apply (final_invariant stream_body (fun acc => 0 ≤ acc.1 ∧ 0 ≤ acc.2));
    [|simpl; lia].
  intros event acc Hin Hacc. rewrite bedrock_body.
  rewrite forallb_forall in Hall.
  specialize (Hall event (proj1 (list_elem_of_In _ _) Hin)).
  destruct event as [| |chunkData]; [exact Hacc|exact I|].
  unfold bedrock_counts, usage_of, event_nonneg, metrics_counts in *.
  case_bool_decide; [|exact Hacc].
  destruct (invocationMetrics chunkData) as [m|]; simpl in *; [|exact Hacc].
  unfold metrics_nonneg, nonneg in Hall.
  apply andb_true_iff in Hall.
  destruct (inputTokenCount m), (outputTokenCount m); simpl; lia.
Qed.

End BedrockFacts.

Section StreamRuns.

Import Generator.

Context {Chunk Out : Type}.
Variable body : Chunk → Counters → Step Out.
Variable record_after : Counters → RecordCall.

(** A run whose loop body never throws records once, at its end, the
    counters it ends with. *)
Lemma completed_run (stream : list Chunk) (outs : list Out) :
  yields body stream (0, 0) = outs →
  completes body stream (0, 0) = true →
  consume body record_after (S (length stream)) (start stream) =
    Some (outs, true, [record_after (final body stream (0, 0))]) ∧
  ∀ k : nat,
    (calls body record_after k (start stream)).1.1 =
      (if (k <=? length outs)%nat then Yielded <$> take k outs
       else (Yielded <$> outs) ++ replicate (k - length outs) Done) ∧
    (calls body record_after k (start stream)).2 =
      (if (k <=? length outs)%nat then []
       else [record_after (final body stream (0, 0))]).
Proof.
  intros Hys Hok. unfold start. split.
  - rewrite consume_spec.
    + unfold recorded. now rewrite Hys, Hok.
    + pose proof (yields_length body stream (0, 0)). lia.
  - intros k. rewrite calls_spec. unfold ending, recorded.
    rewrite Hys, Hok.
    destruct (k <=? length outs)%nat eqn:Hk; [easy|].
    apply Nat.leb_gt in Hk. cbn [fst snd]. split; [|reflexivity].
    destruct (k - length outs)%nat as [|d] eqn:Hd; [lia|].
    replace (S d - 1)%nat with d by lia. reflexivity.
Qed.

Lemma completed_run_records_once (stream : list Chunk) (outs : list Out) :
  yields body stream (0, 0) = outs →
  completes body stream (0, 0) = true →
  records_once_at_end body record_after (start stream) outs.
Proof.
  intros Hys Hok. exists (record_after (final body stream (0, 0))).
  now apply completed_run.
Qed.

End StreamRuns.

(** C6: every streaming wrapper whose chunk sequence is consumed to
    exhaustion records exactly one usage event, in the call that follows
    the yield of the final chunk: nothing is recorded while chunks are still
    being yielded, and nothing more is recorded afterwards.  This holds for
    [GeminiWrapper.generateContentStream], for
    [GeminiChatSession.sendMessageStream], for
    [AzureOpenAIWrapper.streamChatCompletions] and, when every chunk of the
    stream parses (else the generator throws before the stream is
    exhausted), for [BedrockWrapper.invokeModelWithResponseStream]. *)
Theorem streaming_records_once_after_final_chunk :
  (∀ this startTime endTime stream,
     Generator.records_once_at_end Gemini.stream_body
       (Gemini.stream_record this startTime endTime)
       (Gemini.generateContentStream this stream) stream) ∧
  (∀ this startTime endTime stream,
     Generator.records_once_at_end Gemini.stream_body
       (Gemini.stream_record this startTime endTime)
       (Gemini.sendMessageStream this stream) stream) ∧
  (∀ deploymentName startTime endTime stream,
     Generator.records_once_at_end AzureOpenAI.stream_body
       (AzureOpenAI.stream_record deploymentName startTime endTime)
       (AzureOpenAI.streamChatCompletions deploymentName stream) stream) ∧
  (∀ startTime endTime input events,
     Bedrock.all_parse events = true →
     Generator.records_once_at_end Bedrock.stream_body
       (Bedrock.stream_record (Bedrock.modelId input) startTime endTime)
       (Bedrock.invokeModelWithResponseStream startTime endTime input events)
       (Bedrock.parsed_chunks events)).
Proof.
  repeat apply conj.
  - intros this t0 t1 stream.
    apply completed_run_records_once; apply gemini_yields.
  - intros this t0 t1 stream.
    apply completed_run_records_once; apply gemini_yields.
  - intros name t0 t1 stream.
    apply completed_run_records_once; apply azure_yields.
  - intros t0 t1 input events Hall.
    apply completed_run_records_once.
    + now apply bedrock_yields.
    + now rewrite bedrock_completes.
Qed.

Lemma streaming_records_once_after_final_chunk_witness :
  Generator.records_once_at_end Bedrock.stream_body
    (Bedrock.stream_record "anthropic.claude-3" 100 250)
    (Generator.start
       [Bedrock.Chunk (Bedrock.mkChunkData (Some "content_block_delta") None);
        Bedrock.NoChunk;
        Bedrock.Chunk
          (Bedrock.mkChunkData (Some "message_stop")
             (Some (Bedrock.mkMetrics (Some 12) (Some 34))))])
    [Bedrock.mkChunkData (Some "content_block_delta") None;
     Bedrock.mkChunkData (Some "message_stop")
       (Some (Bedrock.mkMetrics (Some 12) (Some 34)))].
Proof.
  apply (proj2 (proj2 (proj2 streaming_records_once_after_final_chunk))
           100 250 (Bedrock.mkInput "anthropic.claude-3" "" None None)).
  reflexivity.
Defined.

(** C10: for every streaming wrapper consumed to completion, the recorded
    prompt and completion token counts are those of the last chunk that
    carried usage metadata (for Bedrock: the invocation metrics of the last
    message_stop chunk that has them, a count absent from the metrics being
    zero), and both are zero when no chunk carried any. *)
Theorem streaming_records_last_usage :
  (∀ this startTime endTime stream,
     ∃ r, Gemini.consume this startTime endTime (S (length stream))
            (Gemini.generateContentStream this stream) =
          Some (stream, true, [r]) ∧
          (promptTokens r, completionTokens r) =
          match Gemini.last_usage stream with
          | Some u =>
              (Gemini.promptTokenCount u, Gemini.candidatesTokenCount u)
          | None => (0, 0)
          end) ∧
  (∀ this startTime endTime stream,
     ∃ r, Gemini.consume this startTime endTime (S (length stream))
            (Gemini.sendMessageStream this stream) =
          Some (stream, true, [r]) ∧
          (promptTokens r, completionTokens r) =
          match Gemini.last_usage stream with
          | Some u =>
              (Gemini.promptTokenCount u, Gemini.candidatesTokenCount u)
          | None => (0, 0)
          end) ∧
  (∀ deploymentName startTime endTime stream,
     ∃ r, AzureOpenAI.consume deploymentName startTime endTime
            (S (length stream))
            (AzureOpenAI.streamChatCompletions deploymentName stream) =
          Some (stream, true, [r]) ∧
          (promptTokens r, completionTokens r) =
          match AzureOpenAI.last_usage stream with
          | Some u =>
              (AzureOpenAI.stream_promptTokens u,
               AzureOpenAI.stream_completionTokens u)
          | None => (0, 0)
          end) ∧
  (∀ startTime endTime input events,
     Bedrock.all_parse events = true →
     ∃ r, Bedrock.consume startTime endTime input (S (length events))
            (Bedrock.invokeModelWithResponseStream startTime endTime input
               events) =
          Some (Bedrock.parsed_chunks events, true, [r]) ∧
          (promptTokens r, completionTokens r) =
          match Bedrock.last_usage events with
          | Some m =>
              (default 0 (Bedrock.inputTokenCount m),
               default 0 (Bedrock.outputTokenCount m))
          | None => (0, 0)
          end).
Proof.
  repeat apply conj.
  - intros this t0 t1 stream. eexists. split.
    + apply completed_run; apply gemini_yields.
    + cbn [promptTokens completionTokens Gemini.stream_record].
      rewrite <- surjective_pairing. apply gemini_final.
  - intros this t0 t1 stream. eexists. split.
    + apply completed_run; apply gemini_yields.
    + cbn [promptTokens completionTokens Gemini.stream_record].
      rewrite <- surjective_pairing. apply gemini_final.
  - intros name t0 t1 stream. eexists. split.
    + apply completed_run; apply azure_yields.
    + cbn [promptTokens completionTokens AzureOpenAI.stream_record].
      rewrite <- surjective_pairing. apply azure_final.
  - intros t0 t1 input events Hall. eexists. split.
    + apply completed_run;
        [now apply bedrock_yields | now rewrite bedrock_completes].
    + cbn [promptTokens completionTokens Bedrock.stream_record].
      rewrite <- surjective_pairing. now apply bedrock_final.
Qed.

Lemma streaming_records_last_usage_witness :
  ∃ r, Bedrock.consume 100 250
         (Bedrock.mkInput "anthropic.claude-3" "" None None) 4
         (Generator.start
            [Bedrock.Chunk
               (Bedrock.mkChunkData (Some "message_stop")
                  (Some (Bedrock.mkMetrics (Some 12) (Some 34))));
             Bedrock.NoChunk;
             Bedrock.Chunk
               (Bedrock.mkChunkData (Some "content_block_delta")
                  (Some (Bedrock.mkMetrics (Some 1) (Some 2))))]) =
       Some ([Bedrock.mkChunkData (Some "message_stop")
                (Some (Bedrock.mkMetrics (Some 12) (Some 34)));
              Bedrock.mkChunkData (Some "content_block_delta")
                (Some (Bedrock.mkMetrics (Some 1) (Some 2)))], true, [r]) ∧
       (promptTokens r, completionTokens r) = (12, 34).
Proof.
  apply (proj2 (proj2 (proj2 streaming_records_last_usage))
           100 250 (Bedrock.mkInput "anthropic.claude-3" "" None None)
           [Bedrock.Chunk
              (Bedrock.mkChunkData (Some "message_stop")
                 (Some (Bedrock.mkMetrics (Some 12) (Some 34))));
            Bedrock.NoChunk;
            Bedrock.Chunk
              (Bedrock.mkChunkData (Some "content_block_delta")
                 (Some (Bedrock.mkMetrics (Some 1) (Some 2))))]).
  reflexivity.
Defined.

(** ** Token counts handed to [record] *)

Section CountFacts.

Lemma calls_log_invariant {Chunk Out : Type}
    (body : Chunk → Generator.Counters → Generator.Step Out)
    (record_after : Generator.Counters → RecordCall)
    (P : RecordCall → Prop) (k : nat) (stream : list Chunk) :
  P (record_after (Generator.final body stream (0, 0))) →
  Forall P (Generator.calls body record_after k (Generator.start stream)).2.
Proof.
  intros HP. unfold Generator.start. rewrite calls_spec.
  destruct (k <=? _)%nat; cbn [snd]; [constructor|].
  unfold Generator.recorded.
  destruct (Generator.completes body stream (0, 0)); repeat constructor.
  exact HP.
Qed.

Lemma extractTokens_nonneg (modelId : string) (b : Bedrock.ResponseBody) :
  Bedrock.body_nonneg b = true →
  0 ≤ (Bedrock.extractTokens modelId b).1 ∧
  0 ≤ (Bedrock.extractTokens modelId b).2.
Proof.
  unfold Bedrock.body_nonneg. rewrite !andb_true_iff.
  intros [[[[[Hu Hi] Hr] Hp] Hg] Hm].
  unfold Bedrock.extractTokens.
  repeat match goal with
         | |- context [if ?c then _ else _] => destruct c
         end;
    cbn [fst snd]; try (split; reflexivity);
    split; apply or_zero_nonneg; try assumption.
  all: try (destruct (Bedrock.usage b) as [u|]; [|reflexivity];
            cbn in Hu |- *; unfold Bedrock.usage_nonneg in Hu;
            rewrite !andb_true_iff in Hu; tauto).
  - destruct (Bedrock.results b) as [[|r rs]|]; try reflexivity.
    cbn in Hr |- *. now apply andb_true_iff in Hr.
  - destruct (Bedrock.meta b) as [m|]; [|reflexivity].
    cbn in Hm |- *. unfold Bedrock.meta_nonneg in Hm.
    destruct (Bedrock.billed_units m); [|reflexivity].
    now apply andb_true_iff in Hm.
  - destruct (Bedrock.meta b) as [m|]; [|reflexivity].
    cbn in Hm |- *. unfold Bedrock.meta_nonneg in Hm.
    destruct (Bedrock.billed_units m); [|reflexivity].
    now apply andb_true_iff in Hm.
Qed.

End CountFacts.

(** C5, as stated, fails: a Bedrock response whose usage reports a
    negative input count is recorded with that negative prompt count. *)
Lemma bedrock_records_negative_count :
  (Bedrock.invokeModel
     (fun _ =>
        Ok (Bedrock.mkResponse
              (Some (Bedrock.mkBody
                       (Some (Bedrock.Usage.mk (Some (-1)) (Some 7) None None))
                       None None None None None))
              (Some "req-1")))
     100 250 (Bedrock.mkInput "anthropic.claude-3" "{}" None None)).2 =
  [mkRecordCall bedrock "anthropic.claude-3" (-1) 7 150
     (Some [("requestId", Some "req-1")])] ∧
  ¬ counts_nonneg
      (mkRecordCall bedrock "anthropic.claude-3" (-1) 7 150
         (Some [("requestId", Some "req-1")])).
Proof.
  split; [reflexivity|]. unfold counts_nonneg. simpl. lia.
Qed.

(** Counts that the provider reports non-negative are recorded
    non-negative, on every recording path of the wrappers. *)
Lemma reported_nonneg_stays_nonneg :
  (∀ modelId body,
     Bedrock.body_nonneg body = true →
     0 ≤ (Bedrock.extractTokens modelId body).1 ∧
     0 ≤ (Bedrock.extractTokens modelId body).2) ∧
  (∀ send startTime endTime input,
     (∀ command, returned Bedrock.response_nonneg (send command) = true) →
     Forall counts_nonneg
       (Bedrock.invokeModel send startTime endTime input).2) ∧
  (∀ this answer startTime endTime,
     returned Gemini.chunk_nonneg answer = true →
     Forall counts_nonneg
       (Gemini.generateContent this answer startTime endTime).2 ∧
     Forall counts_nonneg
       (Gemini.sendMessage this answer startTime endTime).2) ∧
  (∀ deploymentName answer startTime endTime,
     returned AzureOpenAI.response_nonneg answer = true →
     Forall counts_nonneg
       (AzureOpenAI.getChatCompletions deploymentName answer startTime
          endTime).2) ∧
  (∀ deploymentName answer startTime endTime,
     returned AzureOpenAI.embeddings_nonneg answer = true →
     Forall counts_nonneg
       (AzureOpenAI.getEmbeddings deploymentName answer startTime
          endTime).2) ∧
  (∀ this startTime endTime stream k,
     forallb Gemini.chunk_nonneg stream = true →
     Forall counts_nonneg
       (Gemini.calls this startTime endTime k
          (Gemini.generateContentStream this stream)).2 ∧
     Forall counts_nonneg
       (Gemini.calls this startTime endTime k
          (Gemini.sendMessageStream this stream)).2) ∧
  (∀ deploymentName startTime endTime stream k,
     forallb AzureOpenAI.event_nonneg stream = true →
     Forall counts_nonneg
       (AzureOpenAI.calls deploymentName startTime endTime k
          (AzureOpenAI.streamChatCompletions deploymentName stream)).2) ∧
  (∀ startTime endTime input events k,
     forallb Bedrock.event_nonneg events = true →
     Forall counts_nonneg
       (Bedrock.calls startTime endTime input k
          (Bedrock.invokeModelWithResponseStream startTime endTime input
             events)).2).
Proof.
  repeat apply conj.
  - apply extractTokens_nonneg.
  - intros send t0 t1 input Hsend. unfold Bedrock.invokeModel.
    match goal with |- context [send ?c] => specialize (Hsend c);
      destruct (send c) as [response|msg] end; [|constructor].
    cbn in Hsend. unfold Bedrock.response_nonneg in Hsend.
    destruct (Bedrock.parsed response) as [body|]; [|constructor].
    pose proof (extractTokens_nonneg (Bedrock.modelId input) body Hsend)
      as Hcounts.
    destruct (Bedrock.extractTokens (Bedrock.modelId input) body).
    repeat constructor; apply Hcounts.
  - intros this answer t0 t1 Hans.
    destruct answer as [r|msg]; [|split; constructor].
    cbn in Hans. unfold Gemini.chunk_nonneg in Hans.
    split; repeat constructor; cbn; rewrite or_zero_default;
      destruct (Gemini.usageMetadata (Gemini.response r)) as [u|];
      cbn in *; try lia; apply andb_true_iff in Hans; lia.
  - intros name answer t0 t1 Hans.
    destruct answer as [r|msg]; [|constructor].
    cbn in Hans. unfold AzureOpenAI.response_nonneg in Hans.
    repeat constructor; cbn; rewrite or_zero_default;
      destruct (AzureOpenAI.usage r) as [u|];
      cbn in *; try lia; apply andb_true_iff in Hans; lia.
  - intros name answer t0 t1 Hans.
    destruct answer as [r|msg]; [|constructor].
    cbn in Hans. unfold AzureOpenAI.embeddings_nonneg in Hans.
    repeat constructor; cbn; try lia. rewrite or_zero_default.
    destruct (AzureOpenAI.embeddings_usage r) as [u|]; cbn in *; lia.
  - intros this t0 t1 stream k Hall.
    split; apply calls_log_invariant; now apply gemini_final_nonneg.
  - intros name t0 t1 stream k Hall.
    apply calls_log_invariant. now apply azure_final_nonneg.
  - intros t0 t1 input events k Hall.
    apply calls_log_invariant. now apply bedrock_final_nonneg.
Qed.

Lemma calls_log_completed {Chunk Out : Type}
    (body : Chunk → Generator.Counters → Generator.Step Out)
    (record_after : Generator.Counters → RecordCall)
    (P : RecordCall → Prop) (k : nat) (stream : list Chunk) :
  (Generator.completes body stream (0, 0) = true →
   P (record_after (Generator.final body stream (0, 0)))) →
  Forall P (Generator.calls body record_after k (Generator.start stream)).2.
Proof.
  intros HP. unfold Generator.start. rewrite calls_spec.
  destruct (k <=? _)%nat; cbn [snd]; [constructor|].
  unfold Generator.recorded.
  destruct (Generator.completes body stream (0, 0)); repeat constructor.
  now apply HP.
Qed.

(** C5 (amended): on every recording path the wrappers hand to [record]
    exactly the counts the provider reported, zero for a count that is
    absent: nothing is clamped, so a negative count is recorded as it is.
    This is shown for [BedrockWrapper.extractTokens] (family by family) and
    [invokeModel], [GeminiWrapper.generateContent],
    [GeminiChatSession.sendMessage], [AzureOpenAIWrapper.getChatCompletions]
    and [getEmbeddings], and for the four streaming wrappers after any
    number of calls of [next()] (the counts of the last chunk with usage).
    Hence the recorded prompt and completion token counts are non-negative
    whenever the counts reported by the provider are. *)
Theorem recorded_counts_are_the_reported_counts :
  ((∀ modelId body,
      Bedrock.extractTokens modelId body =
      let id := Bedrock.toLowerCase modelId in
      let usage := Bedrock.usage body in
      let meta := Bedrock.meta body in
      if Bedrock.includes id "anthropic" then
        (default 0 (usage ?. Bedrock.Usage.input_tokens),
         default 0 (usage ?. Bedrock.Usage.output_tokens))
      else if Bedrock.includes id "amazon.titan" then
        (default 0 (Bedrock.inputTextTokenCount body),
         default 0 (Bedrock.results body ?. head ?. Bedrock.tokenCount))
      else if Bedrock.includes id "meta.llama" then
        (default 0 (Bedrock.prompt_token_count body),
         default 0 (Bedrock.generation_token_count body))
      else if Bedrock.includes id "cohere" then
        (default 0 (meta ?. Bedrock.billed_units ?.
                      Bedrock.BilledUnits.input_tokens),
         default 0 (meta ?. Bedrock.billed_units ?.
                      Bedrock.BilledUnits.output_tokens))
      else if Bedrock.includes id "mistral" then
        (default 0 (usage ?. Bedrock.Usage.prompt_tokens),
         default 0 (usage ?. Bedrock.Usage.completion_tokens))
      else if Bedrock.includes id "ai21" then
        (default 0 (usage ?. Bedrock.Usage.prompt_tokens),
         default 0 (usage ?. Bedrock.Usage.completion_tokens))
      else (0, 0)) ∧
   (∀ send startTime endTime input,
      match (Bedrock.invokeModel send startTime endTime input).1 with
      | Ok (body, _) =>
          map counts (Bedrock.invokeModel send startTime endTime input).2 =
          [Bedrock.extractTokens (Bedrock.modelId input) body]
      | Throw _ =>
          (Bedrock.invokeModel send startTime endTime input).2 = []
      end) ∧
   (∀ this response startTime endTime,
      map counts
        (Gemini.generateContent this (Ok response) startTime endTime).2 =
      [match Gemini.usageMetadata (Gemini.response response) with
       | Some u => (Gemini.promptTokenCount u, Gemini.candidatesTokenCount u)
       | None => (0, 0)
       end] ∧
      map counts
        (Gemini.sendMessage this (Ok response) startTime endTime).2 =
      [match Gemini.usageMetadata (Gemini.response response) with
       | Some u => (Gemini.promptTokenCount u, Gemini.candidatesTokenCount u)
       | None => (0, 0)
       end]) ∧
   (∀ deploymentName response startTime endTime,
      map counts
        (AzureOpenAI.getChatCompletions deploymentName (Ok response)
           startTime endTime).2 =
      [match AzureOpenAI.usage response with
       | Some u => (AzureOpenAI.promptTokens u, AzureOpenAI.completionTokens u)
       | None => (0, 0)
       end]) ∧
   (∀ deploymentName response startTime endTime,
      map counts
        (AzureOpenAI.getEmbeddings deploymentName (Ok response) startTime
           endTime).2 =
      [(match AzureOpenAI.embeddings_usage response with
        | Some u => AzureOpenAI.embeddings_promptTokens u
        | None => 0
        end, 0)]) ∧
   (∀ this startTime endTime stream k,
      let reported :=
        match Gemini.last_usage stream with
        | Some u => (Gemini.promptTokenCount u, Gemini.candidatesTokenCount u)
        | None => (0, 0)
        end in
      Forall (fun r => counts r = reported)
        (Gemini.calls this startTime endTime k
           (Gemini.generateContentStream this stream)).2 ∧
      Forall (fun r => counts r = reported)
        (Gemini.calls this startTime endTime k
           (Gemini.sendMessageStream this stream)).2) ∧
   (∀ deploymentName startTime endTime stream k,
      Forall (fun r =>
                counts r =
                match AzureOpenAI.last_usage stream with
                | Some u =>
                    (AzureOpenAI.stream_promptTokens u,
                     AzureOpenAI.stream_completionTokens u)
                | None => (0, 0)
                end)
        (AzureOpenAI.calls deploymentName startTime endTime k
           (AzureOpenAI.streamChatCompletions deploymentName stream)).2) ∧
   (∀ startTime endTime input events k,
      Forall (fun r =>
                counts r =
                match Bedrock.last_usage events with
                | Some m =>
                    (default 0 (Bedrock.inputTokenCount m),
                     default 0 (Bedrock.outputTokenCount m))
                | None => (0, 0)
                end)
        (Bedrock.calls startTime endTime input k
           (Bedrock.invokeModelWithResponseStream startTime endTime input
              events)).2)) ∧
  ((∀ modelId body,
     Bedrock.body_nonneg body = true →
     0 ≤ (Bedrock.extractTokens modelId body).1 ∧
     0 ≤ (Bedrock.extractTokens modelId body).2) ∧
  (∀ send startTime endTime input,
     (∀ command, returned Bedrock.response_nonneg (send command) = true) →
     Forall counts_nonneg
       (Bedrock.invokeModel send startTime endTime input).2) ∧
  (∀ this answer startTime endTime,
     returned Gemini.chunk_nonneg answer = true →
     Forall counts_nonneg
       (Gemini.generateContent this answer startTime endTime).2 ∧
     Forall counts_nonneg
       (Gemini.sendMessage this answer startTime endTime).2) ∧
  (∀ deploymentName answer startTime endTime,
     returned AzureOpenAI.response_nonneg answer = true →
     Forall counts_nonneg
       (AzureOpenAI.getChatCompletions deploymentName answer startTime
          endTime).2) ∧
  (∀ deploymentName answer startTime endTime,
     returned AzureOpenAI.embeddings_nonneg answer = true →
     Forall counts_nonneg
       (AzureOpenAI.getEmbeddings deploymentName answer startTime
          endTime).2) ∧
  (∀ this startTime endTime stream k,
     forallb Gemini.chunk_nonneg stream = true →
     Forall counts_nonneg
       (Gemini.calls this startTime endTime k
          (Gemini.generateContentStream this stream)).2 ∧
     Forall counts_nonneg
       (Gemini.calls this startTime endTime k
          (Gemini.sendMessageStream this stream)).2) ∧
  (∀ deploymentName startTime endTime stream k,
     forallb AzureOpenAI.event_nonneg stream = true →
     Forall counts_nonneg
       (AzureOpenAI.calls deploymentName startTime endTime k
          (AzureOpenAI.streamChatCompletions deploymentName stream)).2) ∧
  (∀ startTime endTime input events k,
     forallb Bedrock.event_nonneg events = true →
     Forall counts_nonneg
       (Bedrock.calls startTime endTime input k
          (Bedrock.invokeModelWithResponseStream startTime endTime input
             events)).2)).
Proof.
  split; [|exact reported_nonneg_stays_nonneg].
  repeat apply conj.
  - intros modelId body. unfold Bedrock.extractTokens. cbn zeta.
    now rewrite !or_zero_default.
  - intros send t0 t1 input. unfold Bedrock.invokeModel.
    cbv zeta. destruct (send _) as [raw|msg]; [|reflexivity].
    destruct (Bedrock.parsed raw) as [body|]; [|reflexivity].
    destruct (Bedrock.extractTokens (Bedrock.modelId input) body)
      as [p c] eqn:E.
    cbn [fst snd map]. now rewrite E.
  - intros this response t0 t1.
    unfold Gemini.generateContent, Gemini.sendMessage, counts.
    cbn [snd map promptTokens completionTokens].
    rewrite !or_zero_default.
    now destruct (Gemini.usageMetadata (Gemini.response response)).
  - intros name response t0 t1.
    unfold AzureOpenAI.getChatCompletions, counts.
    cbn [snd map promptTokens completionTokens].
    rewrite !or_zero_default.
    now destruct (AzureOpenAI.usage response).
  - intros name response t0 t1.
    unfold AzureOpenAI.getEmbeddings, counts.
    cbn [snd map promptTokens completionTokens].
    rewrite !or_zero_default.
    now destruct (AzureOpenAI.embeddings_usage response).
  - intros this t0 t1 stream k reported. subst reported.
    split; apply calls_log_invariant;
      unfold counts, Gemini.stream_record;
      cbn [promptTokens completionTokens];
      rewrite <- surjective_pairing; apply gemini_final.
  - intros name t0 t1 stream k. apply calls_log_invariant.
    unfold counts, AzureOpenAI.stream_record.
    cbn [promptTokens completionTokens].
    rewrite <- surjective_pairing. apply azure_final.
  - intros t0 t1 input events k. apply calls_log_completed.
    rewrite bedrock_completes. intros Hall.
    unfold counts, Bedrock.stream_record.
    cbn [promptTokens completionTokens].
    rewrite <- surjective_pairing. now apply bedrock_final.
Qed.

Lemma recorded_counts_are_the_reported_counts_witness :
  0 ≤ (Bedrock.extractTokens "anthropic.claude-3"
         (Bedrock.mkBody
            (Some (Bedrock.Usage.mk (Some 12) (Some 34) None None))
            None None None None None)).1 ∧
  0 ≤ (Bedrock.extractTokens "anthropic.claude-3"
         (Bedrock.mkBody
            (Some (Bedrock.Usage.mk (Some 12) (Some 34) None None))
            None None None None None)).2.
Proof.
  apply (proj1 (proj2 recorded_counts_are_the_reported_counts)).
  reflexivity.
Defined.

(** ** Wire payload *)

Section PayloadFacts.

Import Types.

Lemma is_digit_digit (n : Z) : is_digit (digit n) = true.
Proof.
  unfold is_digit, digit.
  pose proof (Z.mod_pos_bound n 10 eq_refl) as Hmod.
  rewrite nat_ascii_embedding by lia.
  apply andb_true_iff. split; apply Nat.leb_le; lia.
Qed.

Lemma append_cons (c : ascii) (s rest : string) :
  String c s +:+ rest = String c (s +:+ rest).
Proof. reflexivity. Qed.

Lemma append_empty (rest : string) : "" +:+ rest = rest.
Proof. reflexivity. Qed.

Lemma take_digits_pad (width : nat) (n : Z) (rest : string) :
  take_digits width (pad width n +:+ rest) = Some rest.
Proof.
  induction width as [|width IH]; [reflexivity|].
  cbn [pad take_digits]. rewrite append_cons.
  now rewrite is_digit_digit.
Qed.

Lemma matches_digits (width : nat) (n : Z) (pattern : list Item)
    (rest : string) :
  matches (Digits width :: pattern) (pad width n +:+ rest) =
  matches pattern rest.
Proof. cbn [matches]. now rewrite take_digits_pad. Qed.

Lemma matches_lit (c : ascii) (pattern : list Item) (rest : string) :
  matches (Lit c :: pattern) (String c "" +:+ rest) = matches pattern rest.
Proof.
  rewrite append_cons, append_empty. cbn [matches].
  now rewrite Ascii.eqb_refl.
Qed.

Lemma matches_iso_tail (d : Date) :
  matches iso_tail
    ("-" +:+ pad 2 (month d) +:+ "-" +:+ pad 2 (day d)
     +:+ "T" +:+ pad 2 (hours d) +:+ ":" +:+ pad 2 (minutes d)
     +:+ ":" +:+ pad 2 (seconds d) +:+ "." +:+ pad 3 (milliseconds d)
     +:+ "Z") = true.
Proof.
  unfold iso_tail.
  repeat (rewrite matches_lit, matches_digits).
  replace "Z" with ("Z" +:+ "") by reflexivity.
  now rewrite matches_lit.
Qed.

Lemma toISOString_is_iso8601 (d : Date) :
  is_iso8601 (toISOString d) = true.
Proof.
  unfold is_iso8601, toISOString.
  destruct ((0 <=? year d) && (year d <=? 9999)).
  - now rewrite matches_digits, matches_iso_tail.
  - apply orb_true_iff.
    destruct (year d <? 0).
    + right. rewrite append_cons.
      change (String "-" ?s) with ("-" +:+ s).
      now rewrite matches_lit, matches_digits, matches_iso_tail.
    + left. apply orb_true_iff. right. rewrite append_cons.
      change (String "+" ?s) with ("+" +:+ s).
      now rewrite matches_lit, matches_digits, matches_iso_tail.
Qed.

Lemma shape_prop {A : Type} (key : string) (to_json : A → json)
    (k : kind) (v : option A) :
  (∀ a, kind_of (to_json a) = k) →
  map (fun kv => (kv.1, kind_of kv.2)) (prop key to_json v) =
  present key k v.
Proof.
  intros Hk. destruct v as [a|]; [|reflexivity]. simpl. now rewrite Hk.
Qed.

End PayloadFacts.

(** C7: the serialized payload of every event is a JSON object with
    exactly the fields tenant_id, provider, model (strings), prompt_tokens,
    completion_tokens (integers) and timestamp (an ISO-8601 string), followed
    by latency_ms, host and metadata when the event has them; a host object
    has hostname and cloud_provider and, when present, instance_id and a k8s
    object whose fields are among pod, namespace and node. *)
Theorem payload_wire_fields (event : Types.UsageEvent) :
  let j := Types.payload_json (Types.toPayload event) in
  Types.shape j =
    [("tenant_id", Types.KString); ("provider", Types.KString);
     ("model", Types.KString); ("prompt_tokens", Types.KInteger);
     ("completion_tokens", Types.KInteger); ("timestamp", Types.KString)] ++
    Types.present "latency_ms" Types.KInteger (Types.latencyMs event) ++
    Types.present "host" Types.KObject (Types.host event) ++
    Types.present "metadata" Types.KObject (Types.metadata event) ∧
  (∃ s, Types.field "timestamp" j = Some (Types.JString s) ∧
        Types.is_iso8601 s = true) ∧
  match Types.host event with
  | None => Types.field "host" j = None
  | Some h =>
      ∃ hj, Types.field "host" j = Some hj ∧
        Types.shape hj =
          [("hostname", Types.KString); ("cloud_provider", Types.KString)] ++
          Types.present "instance_id" Types.KString (Host.instanceId h) ++
          Types.present "k8s" Types.KObject (Host.k8s h) ∧
        match Host.k8s h with
        | None => Types.field "k8s" hj = None
        | Some k =>
            ∃ kj, Types.field "k8s" hj = Some kj ∧
              Types.shape kj =
                Types.present "pod" Types.KString (Host.pod k) ++
                Types.present "namespace" Types.KString (Host.namespace k) ++
                Types.present "node" Types.KString (Host.node k)
        end
  end.
Proof.
  intros j. subst j. split; [|split].
  - unfold Types.payload_json, Types.toPayload, Types.shape.
    cbn [Types.tenant_id Types.provider_name Types.model_name
         Types.prompt_tokens Types.completion_tokens Types.timestamp_text
         Types.latency_ms Types.host_payload Types.metadata_payload].
    rewrite !map_app.
    rewrite (shape_prop "latency_ms" _ Types.KInteger) by reflexivity.
    rewrite (shape_prop "metadata" _ Types.KObject) by reflexivity.
    rewrite (shape_prop "host" _ Types.KObject) by reflexivity.
    now destruct (Types.host event).
  - exists (Types.toISOString (Types.timestamp event)).
    split; [reflexivity | apply toISOString_is_iso8601].
  - unfold Types.payload_json, Types.toPayload.
    cbn [Types.latency_ms Types.host_payload Types.metadata_payload].
    destruct (Types.latencyMs event) as [ms|],
             (Types.host event) as [h|],
             (Types.metadata event) as [md|]; try reflexivity.
    all: eexists; split; [reflexivity|]; split.
    all: try (unfold Types.host_json, Types.shape;
              cbn [Types.Payload.hostname Types.Payload.cloud_provider
                   Types.Payload.instance_id Types.Payload.k8s];
              rewrite !map_app;
              rewrite (shape_prop "instance_id" _ Types.KString)
                by reflexivity;
              rewrite (shape_prop "k8s" _ Types.KObject) by reflexivity;
              now destruct (Host.k8s h)).
    all: unfold Types.host_json;
      cbn [Types.Payload.hostname Types.Payload.cloud_provider
           Types.Payload.instance_id Types.Payload.k8s];
      destruct (Host.instanceId h) as [i|], (Host.k8s h) as [k|];
      try reflexivity.
    all: eexists; split; [reflexivity|];
      unfold Types.k8s_json, Types.shape;
      cbn [Types.Payload.pod Types.Payload.namespace Types.Payload.node];
      rewrite !map_app;
      now rewrite !(shape_prop _ _ Types.KString) by reflexivity.
Qed.

(** ** Bounded queue *)

Section QueueFacts.

Import BoundedQueue.

Lemma enqueue_invariant (event : Types.UsageEvent) (q : t) :
  (size q ≤ capacity q)%nat →
  (size (enqueue event q).1 ≤ capacity (enqueue event q).1)%nat ∧
  capacity (enqueue event q).1 = capacity q.
Proof.
  intros Hq. unfold enqueue.
  destruct (Nat.eqb_spec (size q) (capacity q)) as [Hfull|Hroom];
    unfold size in *; cbn [fst items capacity]; [easy|].
  rewrite length_app. cbn [length]. lia.
Qed.

Lemma drain_invariant (maxCount : nat) (q : t) :
  (size q ≤ capacity q)%nat →
  (size (drain maxCount q).2 ≤ capacity (drain maxCount q).2)%nat ∧
  capacity (drain maxCount q).2 = capacity q.
Proof.
  intros Hq. unfold drain, size in *. cbn [snd items capacity].
  rewrite length_drop. lia.
Qed.

Lemma apply_invariant (op : Op) (q : t) :
  (size q ≤ capacity q)%nat →
  (size (apply op q) ≤ capacity (apply op q))%nat ∧
  capacity (apply op q) = capacity q.
Proof.
  destruct op as [event|maxCount]; cbn [apply];
    [apply enqueue_invariant | apply drain_invariant].
Qed.

Lemma run_invariant (ops : list Op) (q : t) :
  (size q ≤ capacity q)%nat →
  (size (run ops q) ≤ capacity (run ops q))%nat ∧
  capacity (run ops q) = capacity q.
Proof.
  revert q. induction ops as [|op ops IH]; intros q Hq; [easy|].
  cbn [run foldl].
  destruct (apply_invariant op q Hq) as [Hsize Hcap].
  destruct (IH (apply op q) Hsize) as [Hsize' Hcap'].
  unfold run in *. split; [exact Hsize' | congruence].
Qed.

Lemma enqueue_and_trigger_invariant (event : Types.UsageEvent)
    (c : Client.t) :
  (size (Client.queue c) ≤ capacity (Client.queue c))%nat →
  (size (Client.queue (Client.enqueue_and_trigger event c).1) ≤
   capacity (Client.queue (Client.enqueue_and_trigger event c).1))%nat ∧
  capacity (Client.queue (Client.enqueue_and_trigger event c).1) =
  capacity (Client.queue c).
Proof.
  intros Hq. unfold Client.enqueue_and_trigger.
  pose proof (enqueue_invariant event (Client.queue c) Hq) as [Hs Hc].
  destruct (enqueue event (Client.queue c)) as [q r]. cbn [fst] in Hs, Hc.
  destruct r; [|cbn; split; [lia | exact Hc]].
  destruct (Client.batchSize c <=? size q)%nat;
    [|cbn; split; [lia | exact Hc]].
  pose proof (drain_invariant (Client.batchSize c) q Hs) as [Hs' Hc'].
  destruct (drain (Client.batchSize c) q) as [batch q'].
  cbn in *. split; [lia | congruence].
Qed.

Lemma record_invariant (event : Types.UsageEvent) (c : Client.t) :
  (size (Client.queue c) ≤ capacity (Client.queue c))%nat →
  (size (Client.queue (Client.record event c).1) ≤
   capacity (Client.queue (Client.record event c).1))%nat ∧
  capacity (Client.queue (Client.record event c).1) =
  capacity (Client.queue c).
Proof.
  intros Hq. unfold Client.record.
  destruct (Client.state c);
    [now apply enqueue_and_trigger_invariant
    |now apply enqueue_and_trigger_invariant|].
  cbn. split; [exact Hq | reflexivity].
Qed.

Lemma records_invariant (events : list Types.UsageEvent) (c : Client.t) :
  (size (Client.queue c) ≤ capacity (Client.queue c))%nat →
  (size (Client.queue (Client.records events c).1) ≤
   capacity (Client.queue (Client.records events c).1))%nat ∧
  capacity (Client.queue (Client.records events c).1) =
  capacity (Client.queue c) ∧
  length (Client.records events c).2 = length events.
Proof.
  revert c. induction events as [|event rest IH]; intros c Hq; [easy|].
  cbn [Client.records].
  destruct (record_invariant event c Hq) as [Hs Hc].
  destruct (Client.record event c) as [c1 r]. cbn [fst] in *.
  destruct (IH c1 Hs) as (Hs' & Hc' & Hlen).
  destruct (Client.records rest c1) as [c2 rs]. cbn [fst snd length] in *.
  repeat split; [exact Hs' | congruence | now rewrite Hlen].
Qed.

End QueueFacts.

(** C1: whatever sequence of enqueue and drain operations is run on a
    BoundedQueue, its length never exceeds the configured capacity.  An
    enqueue against a full queue leaves the queue as it is, drops the event
    and reports the drop; every [record] call of a sequence returns, the
    client's queue staying within [maxQueueSize]; and once a drain has made
    room, the next enqueue is accepted. *)
Theorem bounded_queue_within_capacity :
  (∀ capacity ops,
     (BoundedQueue.size (BoundedQueue.run ops (BoundedQueue.empty capacity))
      ≤ capacity)%nat) ∧
  (∀ q event,
     BoundedQueue.size q = BoundedQueue.capacity q →
     BoundedQueue.enqueue event q =
     (BoundedQueue.mk (BoundedQueue.items q) (BoundedQueue.capacity q)
        (S (BoundedQueue.drops q)), BoundedQueue.Dropped)) ∧
  (∀ maxQueueSize batchSize policy events,
     (BoundedQueue.size
        (Client.queue
           (Client.records events
              (Client.create maxQueueSize batchSize policy)).1)
      ≤ maxQueueSize)%nat ∧
     length (Client.records events
               (Client.create maxQueueSize batchSize policy)).2 =
     length events) ∧
  (∀ q event later maxCount,
     BoundedQueue.size q = BoundedQueue.capacity q →
     (0 < BoundedQueue.capacity q)%nat → (0 < maxCount)%nat →
     (BoundedQueue.enqueue later
        (BoundedQueue.drain maxCount (BoundedQueue.enqueue event q).1).2).2 =
     BoundedQueue.Enqueued).
Proof.
  repeat apply conj.
  - intros capacity ops.
    destruct (run_invariant ops (BoundedQueue.empty capacity)) as [Hs Hc];
      [cbn; lia|].
    now rewrite Hc in Hs.
  - intros q event Hfull. unfold BoundedQueue.enqueue.
    now rewrite Hfull, Nat.eqb_refl.
  - intros maxQueueSize batchSize policy events.
    destruct (records_invariant events
                (Client.create maxQueueSize batchSize policy))
      as (Hs & Hc & Hlen); [cbn; lia|].
    rewrite Hc in Hs. split; [exact Hs | exact Hlen].
  - intros q event later maxCount Hfull Hcap Hmax.
    unfold BoundedQueue.enqueue at 2. rewrite Hfull, Nat.eqb_refl.
    unfold BoundedQueue.drain, BoundedQueue.enqueue, BoundedQueue.size in *.
    cbn [fst snd BoundedQueue.items BoundedQueue.capacity].
    rewrite length_drop.
    destruct (Nat.eqb_spec (length (BoundedQueue.items q) - maxCount)
                (BoundedQueue.capacity q)); [lia | reflexivity].
Qed.

Lemma bounded_queue_within_capacity_witness :
  BoundedQueue.enqueue
    (Types.mkUsageEvent "acme" gemini "gemini-1.5-pro" 12 34
       (Types.mkDate 2024 5 17 9 30 0 0) None None None)
    (BoundedQueue.mk
       [Types.mkUsageEvent "acme" bedrock "amazon.titan" 1 2
          (Types.mkDate 2024 5 17 9 29 0 0) None None None] 1 0) =
  (BoundedQueue.mk
     [Types.mkUsageEvent "acme" bedrock "amazon.titan" 1 2
        (Types.mkDate 2024 5 17 9 29 0 0) None None None] 1 1,
   BoundedQueue.Dropped).
Proof.
  apply (proj1 (proj2 bounded_queue_within_capacity)
           (BoundedQueue.mk
              [Types.mkUsageEvent "acme" bedrock "amazon.titan" 1 2
                 (Types.mkDate 2024 5 17 9 29 0 0) None None None] 1 0)).
  reflexivity.
Defined.

(** ** Delivery *)

Section DeliveryFacts.

Import Delivery.

Variable transport : Transport.
Variable batch : list Types.UsageEvent.

Hypothesis always_transient :
  ∀ n, classify (transport n batch) = TransportTransient.

(** Against a Transport that always fails transiently the loop makes every
    attempt it is allowed, numbered consecutively, and gives up. *)
Lemma attempts_all_transient (maxDelay : Z) (remaining n : nat) (delay : Z) :
  attempt_numbers (attempts transport batch maxDelay remaining n delay).1 =
    seq n remaining ∧
  (attempts transport batch maxDelay remaining n delay).2 = DroppedExhausted.
Proof.
  revert n delay. induction remaining as [|remaining IH]; intros n delay;
    [easy|].
  cbn [attempts]. rewrite always_transient.
  destruct remaining as [|remaining']; [easy|].
  specialize (IH (S n) (Z.min (2 * delay) maxDelay)).
  destruct (attempts transport batch maxDelay (S remaining') (S n)
              (Z.min (2 * delay) maxDelay)) as [rest outcome].
  cbn [fst snd] in *. destruct IH as [Hnum ->].
  split; [|reflexivity].
  cbn [attempt_numbers flat_map app]. fold (attempt_numbers rest).
  rewrite Hnum. reflexivity.
Qed.

End DeliveryFacts.

Section RetryFacts.

Import Delivery.

(** Delivery of a batch against a Transport that always fails transiently:
    as many attempts as the policy allows, then the batch is given up. *)
Lemma deliver_all_transient (policy : RetryPolicy) (transport : Transport)
    (batch : list Types.UsageEvent) :
  (∀ n, classify (transport n batch) = TransportTransient) →
  attempt_numbers (deliver policy transport batch).1 =
    seq 1 (retryAttempts policy) ∧
  (deliver policy transport batch).2 = DroppedExhausted.
Proof.
  intros Htransient. unfold deliver.
  now apply attempts_all_transient.
Qed.

(** A [record] call that schedules a batch has enqueued its event, has
    reported nothing and has kept the retry policy. *)
Lemma record_schedules (event : Types.UsageEvent) (c : Client.t)
    (batch : list Types.UsageEvent) :
  Client.scheduled c = [] →
  Client.scheduled (Client.record event c).1 = [batch] →
  (Client.record event c).2 = Client.Recorded ∧
  Client.reports (Client.record event c).1 = Client.reports c ∧
  Client.policy (Client.record event c).1 = Client.policy c.
Proof.
  intros Hnone. unfold Client.record, Client.enqueue_and_trigger.
  destruct (Client.state c);
    try (cbn; rewrite Hnone; discriminate);
    destruct (BoundedQueue.enqueue event (Client.queue c)) as [q []];
    try (cbn; rewrite Hnone; discriminate);
    destruct (Client.batchSize c <=? BoundedQueue.size q)%nat;
    try (cbn; rewrite Hnone; discriminate);
    destruct (BoundedQueue.drain (Client.batchSize c) q) as [b q'];
    cbn; easy.
Qed.

End RetryFacts.

(** C2: when the configured retry attempt count is 3 and every delivery
    attempt for a batch fails with a transient error (timeout, connection
    error, 5xx or 429), the delivery cycle makes exactly the attempts 1, 2
    and 3, then drops the batch and reports a terminal failure on the report
    channel.  The [record] call that scheduled the batch had already
    returned normally, with nothing reported; the batch is not put back in
    the queue. *)
Theorem transient_failures_exhaust_three_attempts
    (transport : Delivery.Transport) (c0 : Client.t)
    (event : Types.UsageEvent) (batch : list Types.UsageEvent) :
  Delivery.retryAttempts (Client.policy c0) = 3%nat →
  (∀ n, Delivery.classify (transport n batch) =
        Delivery.TransportTransient) →
  Client.scheduled c0 = [] →
  Client.scheduled (Client.record event c0).1 = [batch] →
  let c1 := (Client.record event c0).1 in
  let sent := Client.send_next transport c1 in
  (Client.record event c0).2 = Client.Recorded ∧
  Client.reports c1 = Client.reports c0 ∧
  Delivery.attempt_numbers sent.2 = [1; 2; 3]%nat ∧
  Delivery.attempt_count sent.2 = 3%nat ∧
  (Delivery.deliver (Client.policy c0) transport batch).2 =
    Delivery.DroppedExhausted ∧
  Client.reports sent.1 =
    Client.reports c0 ++
    [Client.DeliveryFailed Delivery.DroppedExhausted batch] ∧
  Client.scheduled sent.1 = [] ∧
  Client.queue sent.1 = Client.queue c1.
Proof.
  intros Hthree Htransient Hnone Hsched c1 sent.
  destruct (record_schedules event c0 batch Hnone Hsched)
    as (Hres & Hrep & Hpol).
  destruct (deliver_all_transient (Client.policy c0) transport batch
              Htransient) as [Hnum Hout].
  rewrite Hthree in Hnum.
  assert (Hsent :
    sent = (Client.mk (Client.queue c1) (Client.batchSize c1)
              (Client.policy c1) (Client.state c1)
              (Client.reports c1 ++
               [Client.DeliveryFailed Delivery.DroppedExhausted batch]) [],
            (Delivery.deliver (Client.policy c0) transport batch).1)).
  { subst sent. unfold Client.send_next. fold c1 in Hsched, Hpol.
    rewrite Hsched, Hpol.
    destruct (Delivery.deliver (Client.policy c0) transport batch)
      as [trace outcome].
    cbn [snd] in Hout. now subst outcome. }
  rewrite Hsent. cbn [fst snd Client.reports Client.scheduled Client.queue].
  fold c1 in Hrep. rewrite Hrep.
  unfold Delivery.attempt_count. rewrite Hnum.
  repeat split; assumption.
Qed.

Lemma transient_failures_exhaust_three_attempts_witness :
  Delivery.attempt_numbers
    (Client.send_next (fun _ _ => Delivery.TimedOut)
       (Client.record
          (Types.mkUsageEvent "acme" gemini "gemini-1.5-pro" 12 34
             (Types.mkDate 2024 5 17 9 30 0 0) None None None)
          (Client.create 1000 1 (Delivery.mkPolicy 3 1000 30000))).1).2 =
  [1; 2; 3]%nat.
Proof.
  apply (transient_failures_exhaust_three_attempts
           (fun _ _ => Delivery.TimedOut)
           (Client.create 1000 1 (Delivery.mkPolicy 3 1000 30000))
           (Types.mkUsageEvent "acme" gemini "gemini-1.5-pro" 12 34
              (Types.mkDate 2024 5 17 9 30 0 0) None None None)
           [Types.mkUsageEvent "acme" gemini "gemini-1.5-pro" 12 34
              (Types.mkDate 2024 5 17 9 30 0 0) None None None]);
    reflexivity.
Defined.

(** * Further properties of the sources *)

(** ** Host metadata: white space, requests and the cache *)

Section TrimFacts.

Import Host.

Ltac by_first_character s :=
  let a := fresh "a" in
  let b := fresh "b" in
  let c := fresh "c" in
  let r := fresh "r" in
  destruct s as [|a [|b [|c r]]];
  cbn [space_prefix trim_start] in *;
  repeat match goal with
         | |- context [if ?t then _ else _] =>
             let H := fresh "Hspace" in destruct t eqn:H
         | H : context [if ?t then _ else _] |- _ =>
             let H' := fresh "Hspace" in destruct t eqn:H'
         end.

Lemma trim_start_unfold (s : string) :
  trim_start s =
  match space_prefix s with
  | Some rest => trim_start rest
  | None => s
  end.
Proof.
  destruct s as [|a r1]; [reflexivity|]. cbn [trim_start space_prefix].
  destruct (is_space a); [reflexivity|].
  destruct r1 as [|b r2]; [reflexivity|].
  destruct (is_space2 a b); [reflexivity|].
  destruct r2 as [|c r3]; [reflexivity|].
  now destruct (is_space3 a b c).
Qed.

(** A white space character at the start of a string is a non-empty
    piece of it. *)
Lemma space_prefix_split (s rest : string) :
  space_prefix s = Some rest →
  ∃ e, s = e +:+ rest ∧ one_space e = true ∧
       (String.length rest < String.length s)%nat.
Proof.
  unfold one_space. intros Hs.
  by_first_character s; try discriminate; injection Hs as <-;
    first
      [ solve [exists (String a ""); cbn [space_prefix String.length];
               rewrite ?Hspace, ?Hspace0, ?Hspace1;
               (split; [reflexivity|]); (split; [reflexivity|]); lia]
      | solve [exists (String a (String b ""));
               cbn [space_prefix String.length];
               rewrite ?Hspace, ?Hspace0, ?Hspace1;
               (split; [reflexivity|]); (split; [reflexivity|]); lia]
      | solve [exists (String a (String b (String c "")));
               cbn [space_prefix String.length];
               rewrite ?Hspace, ?Hspace0, ?Hspace1;
               (split; [reflexivity|]); (split; [reflexivity|]); lia] ].
Qed.

(** It is still there when the string is continued. *)
Lemma space_prefix_append (s rest more : string) :
  space_prefix s = Some rest →
  space_prefix (s +:+ more) = Some (rest +:+ more).
Proof.
  intros Hs.
  by_first_character s; try discriminate; injection Hs as <-;
    rewrite ?append_cons; cbn [space_prefix];
    rewrite ?Hspace, ?Hspace0, ?Hspace1; reflexivity.
Qed.

Lemma trim_start_clean (s : string) : space_prefix (trim_start s) = None.
Proof.
  remember (String.length s) as n eqn:Hn. revert s Hn.
  induction n as [n IH] using lt_wf_ind. intros s ->.
  rewrite trim_start_unfold.
  destruct (space_prefix s) as [rest|] eqn:Hs; [|exact Hs].
  destruct (space_prefix_split s rest Hs) as (_ & _ & _ & Hlen).
  now apply (IH (String.length rest)).
Qed.

Lemma trim_start_fixed (s : string) :
  space_prefix s = None → trim_start s = s.
Proof. intros Hs. now rewrite trim_start_unfold, Hs. Qed.

Lemma all_space_step (s rest : string) :
  space_prefix s = Some rest → all_space s = all_space rest.
Proof.
  intros Hs. unfold all_space. now rewrite (trim_start_unfold s), Hs.
Qed.

Lemma all_space_empty (s : string) :
  space_prefix s = None → all_space s = true → s = "".
Proof.
  intros Hs. unfold all_space. rewrite trim_start_fixed by exact Hs.
  now destruct (String.eqb_spec s "").
Qed.

(** [trimEnd] removes a piece that is white space only. *)
Lemma trim_end_split (s : string) :
  ∃ removed, s = trim_end s +:+ removed ∧ all_space removed = true.
Proof.
  induction s as [|c rest (removed & Hrest & Hremoved)].
  - now exists "".
  - cbn [trim_end]. destruct (all_space (String c rest)) eqn:Hall.
    + now exists (String c rest).
    + exists removed. split; [|exact Hremoved].
      now rewrite append_cons, <- Hrest.
Qed.

Lemma ends_with_space_append (e s : string) :
  ends_with_space s = true → ends_with_space (e +:+ s) = true.
Proof.
  intros Hs. induction e as [|c e IH]; [exact Hs|].
  rewrite append_cons. cbn [ends_with_space]. rewrite IH.
  apply orb_true_r.
Qed.

(** A non-empty string of white space ends with a white space
    character. *)
Lemma all_space_ends (s : string) :
  all_space s = true → s ≠ "" → ends_with_space s = true.
Proof.
  remember (String.length s) as n eqn:Hn. revert s Hn.
  induction n as [n IH] using lt_wf_ind. intros s -> Hall Hne.
  destruct (space_prefix s) as [rest|] eqn:Hs;
    [|now apply all_space_empty in Hall].
  destruct (space_prefix_split s rest Hs) as (e & Heq & He & Hlen).
  destruct (String.eqb_spec rest "") as [->|Hrest].
  - destruct s as [|c s']; [easy|]. cbn [ends_with_space].
    unfold one_space. now rewrite Hs.
  - rewrite Heq. apply ends_with_space_append.
    apply (IH (String.length rest)); [exact Hlen|reflexivity| |exact Hrest].
    now rewrite <- (all_space_step s rest Hs).
Qed.

Lemma trim_end_clean (s : string) : ends_with_space (trim_end s) = false.
Proof.
  induction s as [|c rest IH]; [reflexivity|].
  cbn [trim_end]. destruct (all_space (String c rest)) eqn:Hall;
    [reflexivity|].
  cbn [ends_with_space]. rewrite IH, orb_false_r.
  destruct (one_space (String c (trim_end rest))) eqn:Hone; [|reflexivity].
  exfalso. unfold one_space in Hone.
  destruct (space_prefix (String c (trim_end rest))) as [r|] eqn:Hs;
    [|discriminate].
  apply String.eqb_eq in Hone. subst r.
  destruct (trim_end_split rest) as (removed & Hrest & Hremoved).
  apply (space_prefix_append _ _ removed) in Hs.
  rewrite append_cons, <- Hrest, append_empty in Hs.
  rewrite (all_space_step _ _ Hs) in Hall. congruence.
Qed.

Lemma trim_end_fixed (s : string) :
  ends_with_space s = false → trim_end s = s.
Proof.
  induction s as [|c rest IH]; [reflexivity|].
  intros Hs. cbn [trim_end].
  destruct (all_space (String c rest)) eqn:Hall.
  - apply all_space_ends in Hall; [congruence|discriminate].
  - cbn [ends_with_space] in Hs. apply orb_false_iff in Hs.
    destruct Hs as [_ Hrest]. now rewrite (IH Hrest).
Qed.

Lemma trim_trimmed (s : string) : trimmed (trim s) = true.
Proof.
  unfold trimmed, trim.
  rewrite trim_end_clean.
  destruct (space_prefix (trim_end (trim_start s))) as [r|] eqn:Hs;
    [|reflexivity].
  destruct (trim_end_split (trim_start s)) as (removed & Hsplit & _).
  apply (space_prefix_append _ _ removed) in Hs.
  rewrite <- Hsplit, trim_start_clean in Hs. discriminate.
Qed.

Lemma trimmed_trim (s : string) : trimmed s = true → trim s = s.
Proof.
  unfold trimmed, trim.
  destruct (space_prefix s) eqn:Hs; [discriminate|].
  intros Hend. apply negb_true_iff in Hend.
  rewrite (trim_start_fixed s Hs). now apply trim_end_fixed.
Qed.

End TrimFacts.

(** X1: inside Kubernetes, when the service-account namespace file can
    be read, the namespace reported is its contents without the white space
    of [String.prototype.trim] at either end (the ASCII white space, and
    also U+00A0, U+FEFF, the line and paragraph separators and the other
    Unicode space separators), so it starts and ends with none; the
    POD_NAMESPACE variable is not consulted; and contents that neither
    start nor end with such a character are reported as they are. *)
Theorem k8s_namespace_from_file
    (w : Host.World) (contents : string) :
  Host.serviceaccount_token_exists w = true →
  Host.serviceaccount_namespace w = Some contents →
  ∃ k, Host.getK8sMetadata w = Some k ∧
       Host.namespace k = Some (Host.trim contents) ∧
       Host.trimmed (Host.trim contents) = true ∧
       (Host.trimmed contents = true → Host.namespace k = Some contents).
Proof.
  intros Htoken Hfile. unfold Host.getK8sMetadata, Host.isRunningInKubernetes.
  rewrite Htoken, Hfile. cbn [negb]. eexists. split; [reflexivity|].
  cbn [Host.namespace]. split; [reflexivity|].
  split; [apply trim_trimmed|].
  intros Hclean. now rewrite trimmed_trim.
Qed.

Lemma k8s_namespace_from_file_witness :
  ∃ k, Host.getK8sMetadata
         (Host.mkWorld "pod-7" true
            (Some (Host.no_break_space +:+ "  billing" +:+
                   Host.byte_order_mark +:+ "
"))
            (<["POD_NAMESPACE" := "other"]> ∅) (fun _ => None)) = Some k ∧
       Host.namespace k = Some "billing".
Proof.
  destruct (k8s_namespace_from_file
              (Host.mkWorld "pod-7" true
                 (Some (Host.no_break_space +:+ "  billing" +:+
                        Host.byte_order_mark +:+ "
"))
                 (<["POD_NAMESPACE" := "other"]> ∅) (fun _ => None))
              (Host.no_break_space +:+ "  billing" +:+
               Host.byte_order_mark +:+ "
") eq_refl eq_refl) as (k & Hk & Hns & _).
  exists k. split; [exact Hk | exact Hns].
Defined.

Section ProbeFacts.

Import Host.

Variable w : World.

(** The result and the requests of [getHostMetadata], by the probes that
    answer. *)
Lemma getHostMetadata_cases (log : list Request) :
  getHostMetadata w log =
  let metadata := mkHost (os_hostname w) unknown None (getK8sMetadata w) in
  match aws_ok w with
  | Some i => (with_cloud metadata aws (Some i), log ++ aws_requests w)
  | None =>
      match fetch_text w AzureVmId with
      | Some i =>
          (with_cloud metadata azure (Some i),
           log ++ aws_requests w ++ [AzureVmId])
      | None =>
          match fetch_text w GcpInstanceId with
          | Some i =>
              (with_cloud metadata gcp (Some i),
               log ++ aws_requests w ++ [AzureVmId; GcpInstanceId])
          | None =>
              (with_cloud metadata on_prem None,
               log ++ aws_requests w ++ [AzureVmId; GcpInstanceId])
          end
      end
  end.
Proof.
  rewrite getHostMetadata_unfold, detectAWS_spec. cbn zeta.
  destruct (aws_ok w) as [i|]; cbn [fst snd]; [reflexivity|].
  rewrite detectAzure_spec.
  destruct (fetch_text w AzureVmId) as [i|]; cbn [fst snd];
    [now rewrite <- app_assoc|].
  rewrite detectGCP_spec.
  destruct (fetch_text w GcpInstanceId) as [i|]; cbn [fst snd];
    now rewrite <- !app_assoc.
Qed.

Lemma aws_requests_length :
  (1 ≤ length (aws_requests w) ≤ 2)%nat ∧
  (is_Some (aws_ok w) → length (aws_requests w) = 2%nat).
Proof.
  unfold aws_requests, aws_ok.
  destruct (fetch_text w AwsToken); cbn; split; try lia; try reflexivity.
  intros [i Hi]. discriminate.
Qed.

End ProbeFacts.

(** X2: [getHostMetadata] reports an instance id exactly when it reports
    a cloud provider: the instance id is absent if and only if the provider
    is on-prem. *)
Theorem instance_id_iff_cloud (w : Host.World) (log : list Host.Request) :
  Host.instanceId (Host.getHostMetadata w log).1 = None ↔
  Host.cloudProvider (Host.getHostMetadata w log).1 = Host.on_prem.
Proof.
  rewrite getHostMetadata_cases. cbn zeta.
  destruct (Host.aws_ok w); [easy|].
  destruct (Host.fetch_text w Host.AzureVmId); [easy|].
  destruct (Host.fetch_text w Host.GcpInstanceId); easy.
Qed.

(** X3: [getHostMetadata] keeps the requests already logged and issues
    between two and four more, each at most once, the first being the AWS
    token request.  The AWS instance-id request is issued only with the token
    that the token request returned, and on-prem is reported only after the
    Azure and the GCP probes have both been tried. *)
Theorem getHostMetadata_requests (w : Host.World) (log : list Host.Request) :
  ∃ requests,
    (Host.getHostMetadata w log).2 = log ++ requests ∧
    (2 ≤ length requests ≤ 4)%nat ∧
    NoDup requests ∧
    head requests = Some Host.AwsToken ∧
    (∀ token, Host.AwsInstanceId token ∈ requests →
              Host.fetch_text w Host.AwsToken = Some token) ∧
    (Host.cloudProvider (Host.getHostMetadata w log).1 = Host.on_prem →
     Host.AzureVmId ∈ requests ∧ Host.GcpInstanceId ∈ requests).
Proof.
  rewrite getHostMetadata_cases. cbn zeta.
  unfold Host.aws_ok, Host.aws_requests.
  destruct (Host.fetch_text w Host.AwsToken) as [token|];
    [destruct (Host.fetch_text w (Host.AwsInstanceId token))|];
    try destruct (Host.fetch_text w Host.AzureVmId);
    try destruct (Host.fetch_text w Host.GcpInstanceId);
    cbn [fst snd app];
    (eexists; split; [reflexivity|]);
    (split; [cbn; lia|]);
    (split; [rewrite !NoDup_cons, !not_elem_of_cons;
             repeat split; try discriminate;
             solve [apply not_elem_of_nil | apply NoDup_nil_2]|]);
    (split; [reflexivity|]);
    (split; [intros t; rewrite !elem_of_cons, elem_of_nil;
             intuition (try discriminate; congruence)|]);
    cbn; try discriminate; intros _;
    split;
    repeat first [apply list_elem_of_here | apply list_elem_of_further].
Qed.

(** X4: after [initHostMetadata], [getHostMetadataSync] returns the
    metadata that [getHostMetadata] detected, whatever the host looks like
    by then; before it, [getHostMetadataSync] reports the provider unknown
    and no instance id, with the hostname and the Kubernetes metadata of the
    moment. *)
Theorem host_metadata_cache
    (w later : Host.World) (log : list Host.Request) :
  Host.getHostMetadataSync (Host.initHostMetadata w log).1.2 later =
    (Host.getHostMetadata w log).1 ∧
  (Host.initHostMetadata w log).1.1 = (Host.getHostMetadata w log).1 ∧
  (Host.initHostMetadata w log).2 = (Host.getHostMetadata w log).2 ∧
  Host.cloudProvider
    (Host.getHostMetadataSync (Host.initHostMetadata w log).1.2 later) ≠
    Host.unknown ∧
  Host.getHostMetadataSync None later =
    Host.mkHost (Host.os_hostname later) Host.unknown None
      (Host.getK8sMetadata later).
Proof.
  assert (Hinit : Host.initHostMetadata w log =
                  (((Host.getHostMetadata w log).1,
                    Some (Host.getHostMetadata w log).1),
                   (Host.getHostMetadata w log).2)).
  { unfold Host.initHostMetadata, mbind, Host.probe_bind, mret,
      Host.probe_ret.
    now destruct (Host.getHostMetadata w log). }
  rewrite Hinit. cbn [fst snd Host.getHostMetadataSync].
  repeat split.
  rewrite getHostMetadata_cases. cbn zeta.
  destruct (Host.aws_ok w); [easy|].
  destruct (Host.fetch_text w Host.AzureVmId); [easy|].
  destruct (Host.fetch_text w Host.GcpInstanceId); easy.
Qed.

(** ** Configuration: precedence, blanks, the trailing slash, numbers *)

Section OptionFacts.

Lemma last_char_none (s : string) : last_char s = None ↔ s = "".
Proof.
  destruct s as [|c rest]; [easy|]. simpl.
  destruct (last_char rest); split; discriminate.
Qed.

Lemma or_str_supplied (s : string) (b : option string) :
  s ≠ "" → or_str (Some s) b = Some s.
Proof.
  intros Hs. unfold or_str, truthy_str.
  now destruct (String.eqb_spec s "").
Qed.

Lemma or_lit_some (s lit : string) : s ≠ "" → or_lit (Some s) lit = s.
Proof. intros Hs. unfold or_lit. now destruct (String.eqb_spec s ""). Qed.

Lemma or_str_blank (a b : option string) :
  or_str match a with
         | Some s => if String.eqb s "" then None else Some s
         | None => None
         end b = or_str a b.
Proof.
  destruct a as [s|]; [|reflexivity]. unfold or_str, truthy_str.
  destruct (String.eqb_spec s "") as [->|Hs]; cbn; [reflexivity|].
  now destruct (String.eqb_spec s "").
Qed.

(** [replace(/\/$/, "")] removes exactly one slash from a string that ends
    with one and leaves any other string alone. *)
Lemma strip_trailing_slash_spec (s : string) :
  if ends_with_slash s then s = strip_trailing_slash s +:+ "/"
  else strip_trailing_slash s = s.
Proof.
  unfold ends_with_slash.
  induction s as [|c rest IH]; [reflexivity|].
  cbn [last_char strip_trailing_slash].
  destruct rest as [|c' rest'].
  - cbn [last_char]. destruct (Ascii.eqb_spec c "/") as [->|Hc];
      reflexivity.
  - destruct (last_char (String c' rest')) as [d|] eqn:Hlast.
    + destruct (Ascii.eqb d "/"); [|now rewrite IH].
      rewrite append_cons. now rewrite <- IH.
    + apply last_char_none in Hlast. discriminate.
Qed.

End OptionFacts.

(** X5: an option given as a non-empty string wins over its environment
    variable: the configuration has that backend URL (less one trailing
    slash), that API key and that tenant id, whatever TOKEN_TRACKR_URL,
    TOKEN_TRACKR_API_KEY and TOKEN_TRACKR_TENANT_ID hold. *)
Theorem supplied_options_win
    (options : TokenTrackrOptions.t) (env : gmap string string)
    (c : TokenTrackrConfig.t) :
  TokenTrackrConfig.new options env = Ok c →
  (∀ s, TokenTrackrOptions.backendUrl options = Some s → s ≠ "" →
        TokenTrackrConfig.backendUrl c = strip_trailing_slash s) ∧
  (∀ s, TokenTrackrOptions.apiKey options = Some s → s ≠ "" →
        TokenTrackrConfig.apiKey c = Some s) ∧
  (∀ s, TokenTrackrOptions.tenantId options = Some s → s ≠ "" →
        TokenTrackrConfig.tenantId c = s).
Proof.
  intros Hnew.
  destruct (new_fields options env c Hnew) as (Hu & Hk & Ht & _).
  repeat split; intros s Hopt Hs.
  - rewrite Hu. unfold TokenTrackrConfig.chosenUrl.
    now rewrite Hopt, or_str_supplied, or_lit_some.
  - rewrite Hk, Hopt. now apply or_str_supplied.
  - rewrite Ht, Hopt. now rewrite or_str_supplied, or_lit_some.
Qed.

Lemma supplied_options_win_witness :
  TokenTrackrConfig.backendUrl
    (TokenTrackrConfig.mk "https://a.example" (Some "k1") "acme"
       10 5 1000 3 30000 true) =
  strip_trailing_slash "https://a.example/".
Proof.
  apply (proj1 (supplied_options_win
                  (TokenTrackrOptions.mk (Some "https://a.example/")
                     (Some "k1") (Some "acme") None None None None None
                     None)
                  (<["TOKEN_TRACKR_URL" := "https://b.example"]>
                     (<["TOKEN_TRACKR_TENANT_ID" := "other"]> ∅))
                  (TokenTrackrConfig.mk "https://a.example" (Some "k1")
                     "acme" 10 5 1000 3 30000 true) eq_refl));
    [reflexivity | discriminate].
Defined.

(** X6: an empty string given for the backend URL, the API key or the
    tenant id counts as not given: the constructor behaves exactly as if
    the option had been left out. *)
Theorem blank_option_is_missing
    (options : TokenTrackrOptions.t) (env : gmap string string) :
  TokenTrackrConfig.new (TokenTrackrOptions.blank_as_missing options) env =
  TokenTrackrConfig.new options env.
Proof.
  unfold TokenTrackrConfig.new, TokenTrackrConfig.chosenUrl,
    TokenTrackrOptions.blank_as_missing.
  cbn [TokenTrackrOptions.backendUrl TokenTrackrOptions.apiKey
       TokenTrackrOptions.tenantId TokenTrackrOptions.batchSize
       TokenTrackrOptions.flushInterval TokenTrackrOptions.maxQueueSize
       TokenTrackrOptions.retryAttempts TokenTrackrOptions.timeout
       TokenTrackrOptions.asyncMode].
  now rewrite !or_str_blank.
Qed.

(** X7: the backend URL of a configuration is the chosen URL when that
    does not end with a slash, and otherwise the chosen URL less exactly one
    trailing slash. *)
Theorem backendUrl_loses_one_slash
    (options : TokenTrackrOptions.t) (env : gmap string string)
    (c : TokenTrackrConfig.t) :
  TokenTrackrConfig.new options env = Ok c →
  if ends_with_slash (TokenTrackrConfig.chosenUrl options env)
  then TokenTrackrConfig.chosenUrl options env =
       TokenTrackrConfig.backendUrl c +:+ "/"
  else TokenTrackrConfig.backendUrl c =
       TokenTrackrConfig.chosenUrl options env.
Proof.
  intros Hnew.
  destruct (new_fields options env c Hnew) as (-> & _).
  apply strip_trailing_slash_spec.
Qed.

Lemma backendUrl_loses_one_slash_witness :
  "https://a.example//" =
  TokenTrackrConfig.backendUrl
    (TokenTrackrConfig.mk "https://a.example/" None "default"
       10 5 1000 3 30000 true) +:+ "/".
Proof.
  exact (backendUrl_loses_one_slash
           (TokenTrackrOptions.mk (Some "https://a.example//") None None
              None None None None None None) ∅
           (TokenTrackrConfig.mk "https://a.example/" None "default"
              10 5 1000 3 30000 true) eq_refl).
Defined.

(** X8: the constructor validates no number: whatever integer (negative
    ones included) is given for the batch size, the flush interval, the max
    queue size, the retry attempts or the timeout, and whatever flag for the
    async mode, the configuration holds it unchanged; and whether
    construction succeeds depends on the backend URL option and on
    TOKEN_TRACKR_URL only. *)
Theorem numbers_are_not_validated
    (options : TokenTrackrOptions.t) (env : gmap string string)
    (c : TokenTrackrConfig.t) :
  TokenTrackrConfig.new options env = Ok c →
  (∀ z, TokenTrackrOptions.batchSize options = Some z →
        TokenTrackrConfig.batchSize c = z) ∧
  (∀ z, TokenTrackrOptions.flushInterval options = Some z →
        TokenTrackrConfig.flushInterval c = z) ∧
  (∀ z, TokenTrackrOptions.maxQueueSize options = Some z →
        TokenTrackrConfig.maxQueueSize c = z) ∧
  (∀ z, TokenTrackrOptions.retryAttempts options = Some z →
        TokenTrackrConfig.retryAttempts c = z) ∧
  (∀ z, TokenTrackrOptions.timeout options = Some z →
        TokenTrackrConfig.timeout c = z) ∧
  (∀ b, TokenTrackrOptions.asyncMode options = Some b →
        TokenTrackrConfig.asyncMode c = b) ∧
  (∀ options' env',
     TokenTrackrOptions.backendUrl options' =
       TokenTrackrOptions.backendUrl options →
     env' !! "TOKEN_TRACKR_URL" = env !! "TOKEN_TRACKR_URL" →
     ∃ c', TokenTrackrConfig.new options' env' = Ok c').
Proof.
  intros Hnew.
  destruct (new_fields options env c Hnew)
    as (_ & _ & _ & Hb & Hf & Hm & Hr & Ht & Ha).
  repeat split; try (intros z Hz; rewrite ?Hb, ?Hf, ?Hm, ?Hr, ?Ht, ?Ha, Hz;
                     reflexivity).
  intros options' env' Hopt Henv. apply new_succeeds.
  unfold TokenTrackrConfig.chosenUrl. rewrite Hopt, Henv.
  intros Hslash.
  assert (Hthrow : TokenTrackrConfig.new options env =
                   Throw "backendUrl is required")
    by now apply new_throws.
  congruence.
Qed.

Lemma numbers_are_not_validated_witness :
  TokenTrackrConfig.batchSize
    (TokenTrackrConfig.mk "http://localhost:8000" None "default"
       (-5) 5 1000 (-1) 30000 true) = -5.
Proof.
  exact (proj1 (numbers_are_not_validated
                  (TokenTrackrOptions.mk None None None (Some (-5)) None
                     None (Some (-1)) None None) ∅
                  (TokenTrackrConfig.mk "http://localhost:8000" None
                     "default" (-5) 5 1000 (-1) 30000 true) eq_refl)
           (-5) eq_refl).
Defined.

(** ** Bedrock: model families, failing calls and failing streams *)

Section BedrockMore.

Import Bedrock.

Lemma lower_idempotent (c : ascii) : lower (lower c) = lower c.
Proof. destruct c as [[] [] [] [] [] [] [] []]; reflexivity. Qed.

Lemma toLowerCase_idempotent (s : string) :
  toLowerCase (toLowerCase s) = toLowerCase s.
Proof.
  induction s as [|c rest IH]; [reflexivity|].
  cbn [toLowerCase]. now rewrite lower_idempotent, IH.
Qed.

(** What the loop yields before it ends or throws, for any stream. *)
Lemma bedrock_yields_before_failure (events : list StreamEvent)
    (acc : Generator.Counters) :
  Generator.yields stream_body events acc =
  parsed_chunks (before_failure events).
Proof.
  revert acc. induction events as [|event rest IH]; intros acc;
    [reflexivity|].
  cbn [Generator.yields before_failure]. rewrite bedrock_body.
  destruct event as [| |chunkData]; [apply IH|reflexivity|].
  now rewrite IH.
Qed.

(** Items without bytes change nothing the loop does. *)
Lemma with_bytes_run (events : list StreamEvent) (acc : Generator.Counters) :
  Generator.yields stream_body (with_bytes events) acc =
    Generator.yields stream_body events acc ∧
  Generator.completes stream_body (with_bytes events) acc =
    Generator.completes stream_body events acc ∧
  Generator.final stream_body (with_bytes events) acc =
    Generator.final stream_body events acc.
Proof.
  revert acc. induction events as [|event rest IH]; intros acc; [easy|].
  destruct event as [| |chunkData];
    cbn [with_bytes List.filter Generator.yields Generator.completes
         Generator.final];
    fold (with_bytes rest); rewrite ?bedrock_body; [apply IH|easy|].
  destruct (IH (default acc (bedrock_counts (Chunk chunkData))))
    as (-> & -> & ->).
  easy.
Qed.

End BedrockMore.

(** X9: [extractTokens] ignores the letter case of the model id: two
    ids that differ only in case give the same counts, and lower-casing the
    id beforehand changes nothing. *)
Theorem extractTokens_ignores_case
    (modelId modelId' : string) (body : Bedrock.ResponseBody) :
  Bedrock.toLowerCase modelId = Bedrock.toLowerCase modelId' →
  Bedrock.extractTokens modelId body = Bedrock.extractTokens modelId' body ∧
  Bedrock.extractTokens (Bedrock.toLowerCase modelId) body =
    Bedrock.extractTokens modelId body.
Proof.
  intros Hsame. unfold Bedrock.extractTokens.
  now rewrite toLowerCase_idempotent, Hsame.
Qed.

Lemma extractTokens_ignores_case_witness :
  Bedrock.extractTokens "Anthropic.Claude-3-Sonnet"
    (Bedrock.mkBody (Some (Bedrock.Usage.mk (Some 12) (Some 34) None None))
       None None None None None) =
  Bedrock.extractTokens "ANTHROPIC.CLAUDE-3-SONNET"
    (Bedrock.mkBody (Some (Bedrock.Usage.mk (Some 12) (Some 34) None None))
       None None None None None).
Proof.
  apply (extractTokens_ignores_case "Anthropic.Claude-3-Sonnet"
           "ANTHROPIC.CLAUDE-3-SONNET").
  reflexivity.
Defined.

(** X10: a response body that has none of the count properties gives
    zero prompt and zero completion tokens for every model id. *)
Theorem extractTokens_without_counts (modelId : string) :
  Bedrock.extractTokens modelId Bedrock.no_counts = (0, 0).
Proof.
  unfold Bedrock.extractTokens.
  repeat match goal with
         | |- context [if ?c then _ else _] => destruct c
         end; reflexivity.
Qed.

(** X11: [invokeModel] records exactly one event when it returns, and
    none when [send] throws or the body does not parse (it then throws).
    The event carries the model id of the input, the counts
    [extractTokens] finds in the returned body, the time between the two
    clock readings and the request id; the body returned is the parsed body
    of the response. *)
Theorem invokeModel_records_iff_returns
    (send : Bedrock.Command → JS.result Bedrock.InvokeModelResponse)
    (startTime endTime : Z) (input : Bedrock.InvokeModelInput) :
  match (Bedrock.invokeModel send startTime endTime input).1 with
  | Ok (body, raw) =>
      Bedrock.parsed raw = Some body ∧
      (Bedrock.invokeModel send startTime endTime input).2 =
      [mkRecordCall bedrock (Bedrock.modelId input)
         (Bedrock.extractTokens (Bedrock.modelId input) body).1
         (Bedrock.extractTokens (Bedrock.modelId input) body).2
         (endTime - startTime)
         (Some [("requestId", Bedrock.requestId raw)])]
  | Throw _ => (Bedrock.invokeModel send startTime endTime input).2 = []
  end.
Proof.
  unfold Bedrock.invokeModel.
  match goal with |- context [send ?c] => destruct (send c) as [raw|msg] end;
    [|reflexivity].
  destruct (Bedrock.parsed raw) as [body|] eqn:Hbody; [|reflexivity].
  destruct (Bedrock.extractTokens (Bedrock.modelId input) body)
    as [promptTokens completionTokens] eqn:Hcounts.
  cbn [fst snd]. rewrite ?Hcounts. split; [exact Hbody | reflexivity].
Qed.

(** X12: when some chunk of a Bedrock stream does not parse, the
    consumer receives the chunks parsed before it, then the generator
    throws, and no usage event is recorded, however often [next()] is
    called. *)
Theorem failing_stream_records_nothing
    (startTime endTime : Z) (input : Bedrock.InvokeModelInput)
    (events : list Bedrock.StreamEvent) :
  Bedrock.all_parse events = false →
  Bedrock.consume startTime endTime input (S (length events))
    (Bedrock.invokeModelWithResponseStream startTime endTime input events) =
    Some (Bedrock.parsed_chunks (Bedrock.before_failure events), false, []) ∧
  ∀ k, (Bedrock.calls startTime endTime input k
          (Bedrock.invokeModelWithResponseStream startTime endTime input
             events)).2 = [].
Proof.
  intros Hfail.
  unfold Bedrock.consume, Bedrock.calls,
    Bedrock.invokeModelWithResponseStream, Generator.start.
  split.
  - rewrite consume_spec.
    + unfold Generator.recorded.
      now rewrite bedrock_yields_before_failure, bedrock_completes, Hfail.
    + pose proof (yields_length Bedrock.stream_body events (0, 0)). lia.
  - intros k. rewrite calls_spec. unfold Generator.recorded.
    rewrite bedrock_completes, Hfail. now destruct (k <=? _)%nat.
Qed.

Lemma failing_stream_records_nothing_witness :
  Bedrock.consume 100 250
    (Bedrock.mkInput "anthropic.claude-3" "{}" None None) 4
    (Generator.start
       [Bedrock.Chunk (Bedrock.mkChunkData (Some "message_start") None);
        Bedrock.Unparsable;
        Bedrock.Chunk
          (Bedrock.mkChunkData (Some "message_stop")
             (Some (Bedrock.mkMetrics (Some 12) (Some 34))))]) =
  Some ([Bedrock.mkChunkData (Some "message_start") None], false, []).
Proof.
  apply (proj1 (failing_stream_records_nothing 100 250
                  (Bedrock.mkInput "anthropic.claude-3" "{}" None None)
                  [Bedrock.Chunk
                     (Bedrock.mkChunkData (Some "message_start") None);
                   Bedrock.Unparsable;
                   Bedrock.Chunk
                     (Bedrock.mkChunkData (Some "message_stop")
                        (Some (Bedrock.mkMetrics (Some 12) (Some 34))))]
                  eq_refl)).
Defined.

(** X13: the items of a Bedrock stream that have no bytes are invisible:
    with or without them the generator yields the same chunks to the same
    calls of [next()], ends the same way and records the same event. *)
Theorem items_without_bytes_are_skipped
    (startTime endTime : Z) (input : Bedrock.InvokeModelInput)
    (events : list Bedrock.StreamEvent) :
  Bedrock.consume startTime endTime input
    (S (length (Bedrock.with_bytes events)))
    (Bedrock.invokeModelWithResponseStream startTime endTime input
       (Bedrock.with_bytes events)) =
  Bedrock.consume startTime endTime input (S (length events))
    (Bedrock.invokeModelWithResponseStream startTime endTime input events) ∧
  ∀ k,
    (Bedrock.calls startTime endTime input k
       (Bedrock.invokeModelWithResponseStream startTime endTime input
          (Bedrock.with_bytes events))).1.1 =
    (Bedrock.calls startTime endTime input k
       (Bedrock.invokeModelWithResponseStream startTime endTime input
          events)).1.1 ∧
    (Bedrock.calls startTime endTime input k
       (Bedrock.invokeModelWithResponseStream startTime endTime input
          (Bedrock.with_bytes events))).2 =
    (Bedrock.calls startTime endTime input k
       (Bedrock.invokeModelWithResponseStream startTime endTime input
          events)).2.
Proof.
  unfold Bedrock.consume, Bedrock.calls,
    Bedrock.invokeModelWithResponseStream, Generator.start.
  destruct (with_bytes_run events (0, 0)) as (Hy & Hc & Hf).
  split.
  - rewrite !consume_spec.
    + unfold Generator.recorded. now rewrite Hy, Hc, Hf.
    + pose proof (yields_length Bedrock.stream_body events (0, 0)). lia.
    + pose proof (yields_length Bedrock.stream_body
                    (Bedrock.with_bytes events) (0, 0)). lia.
  - intros k.
    rewrite (calls_spec _ _ k (Bedrock.with_bytes events) (0, 0)).
    rewrite (calls_spec _ _ k events (0, 0)).
    unfold Generator.ending, Generator.recorded. rewrite Hy, Hc, Hf.
    now destruct (k <=? _)%nat.
Qed.

(** ** Gemini and Azure OpenAI: transparency, model names, one-chunk streams *)


(** X15: a Gemini wrapper never has an empty model name (a missing or
    empty [model.model] becomes "gemini-unknown"); a chat session started
    from it has the same name; and every event recorded through the wrapper
    or the session, streaming or not, carries that name and the provider
    gemini. *)
Theorem gemini_events_carry_model_name (modelField : option string) :
  let this := Gemini.new modelField in
  let chat := Gemini.startChat this in
  let named (r : RecordCall) :=
    model r = or_lit modelField "gemini-unknown" ∧ provider r = gemini in
  Gemini.modelName this ≠ "" ∧
  Gemini.modelName chat = Gemini.modelName this ∧
  (∀ answer startTime endTime,
     Forall named (Gemini.generateContent this answer startTime endTime).2 ∧
     Forall named (Gemini.sendMessage chat answer startTime endTime).2) ∧
  (∀ stream startTime endTime k,
     Forall named
       (Gemini.calls this startTime endTime k
          (Gemini.generateContentStream this stream)).2 ∧
     Forall named
       (Gemini.calls chat startTime endTime k
          (Gemini.sendMessageStream chat stream)).2).
Proof.
  intros this chat named. subst this chat named.
  split; [apply or_lit_nonempty; discriminate|].
  split; [reflexivity|]. split.
  - intros [r|msg] t0 t1; split; repeat constructor.
  - intros stream t0 t1 k.
    split; apply calls_log_invariant; split; reflexivity.
Qed.

(** X16: a Gemini stream of one chunk records what the non-streaming
    call records for the same response: [sendMessageStream] consumed over
    the single chunk records exactly the event of [sendMessage], and
    [generateContent] records the same provider, model, counts and latency
    (its event has the finish reason in addition). *)
Theorem one_chunk_stream_matches_call
    (this : Gemini.Wrapper) (chunk : Gemini.GenerateContentResponse)
    (startTime endTime : Z) :
  Gemini.consume this startTime endTime 2
    (Gemini.sendMessageStream this [chunk]) =
  Some ([chunk], true,
        (Gemini.sendMessage this (Ok chunk) startTime endTime).2) ∧
  map (fun r => (provider r, model r, promptTokens r, completionTokens r,
                 latencyMs r))
    (Gemini.generateContent this (Ok chunk) startTime endTime).2 =
  map (fun r => (provider r, model r, promptTokens r, completionTokens r,
                 latencyMs r))
    (Gemini.sendMessage this (Ok chunk) startTime endTime).2.
Proof.
  split; [|reflexivity].
  unfold Gemini.consume, Gemini.sendMessageStream, Generator.start.
  rewrite consume_spec.
  - destruct (gemini_yields [chunk] (0, 0)) as [Hy Hc].
    unfold Generator.recorded. rewrite Hy, Hc.
    cbn [Generator.final]. rewrite gemini_body.
    unfold Gemini.gemini_counts, Gemini.sendMessage, Gemini.stream_record.
    destruct (Gemini.usageMetadata (Gemini.response chunk)) as [u|];
      cbn; [|reflexivity].
    destruct (Z.eqb_spec (Gemini.promptTokenCount u) 0) as [Hp|Hp],
             (Z.eqb_spec (Gemini.candidatesTokenCount u) 0) as [Hq|Hq];
      rewrite ?Hp, ?Hq; reflexivity.
  - destruct (gemini_yields [chunk] (0, 0)) as [-> _]. cbn. lia.
Qed.

(** ** The pricing table: [INSERT ... ON CONFLICT DO NOTHING] *)

Section PricingFacts.

Import Database.

Variable uuid : nat → string.
Variable now : Z.








End PricingFacts.


(** ** Bedrock: the family name may stand anywhere in the model id *)

Section FamilyFacts.

Import Bedrock.

Lemma prefix_append (sub rest : string) :
  String.prefix sub (sub +:+ rest) = true.
Proof.
  induction sub as [|c sub IH]; [now destruct rest|].
  rewrite append_cons. cbn [String.prefix].
  now destruct (Ascii.ascii_dec c c).
Qed.

Lemma includes_append (before sub after : string) :
  includes (before +:+ sub +:+ after) sub = true.
Proof.
  induction before as [|c before IH].
  - rewrite append_empty.
    destruct (sub +:+ after) eqn:Heq; cbn [includes];
      rewrite <- Heq, prefix_append; reflexivity.
  - rewrite append_cons. cbn [includes]. rewrite IH. apply orb_true_r.
Qed.

Lemma toLowerCase_append (a b : string) :
  toLowerCase (a +:+ b) = toLowerCase a +:+ toLowerCase b.
Proof.
  induction a as [|c a IH]; [reflexivity|].
  rewrite append_cons. cbn [toLowerCase]. now rewrite IH, append_cons.
Qed.

End FamilyFacts.

(** X18: a model id that contains "anthropic" anywhere (after a region
    prefix or inside an ARN, for instance) is read as an Anthropic model,
    even when other family names occur in it: the counts are
    [usage.input_tokens] and [usage.output_tokens], zero when absent. *)
Theorem anthropic_anywhere_in_model_id
    (before after : string) (body : Bedrock.ResponseBody) :
  Bedrock.extractTokens (before +:+ "anthropic" +:+ after) body =
  (or_zero (Bedrock.usage body ?. Bedrock.Usage.input_tokens),
   or_zero (Bedrock.usage body ?. Bedrock.Usage.output_tokens)).
Proof.
  unfold Bedrock.extractTokens.
  rewrite !toLowerCase_append.
  change (Bedrock.toLowerCase "anthropic") with "anthropic".
  now rewrite includes_append.
Qed.
